(** * openquake.baselib.performance: the performance monitor

    A shallow embedding of [PerformanceMonitor] and [DummyMonitor]
    (openquake/baselib/performance.py).

    Python objects are modelled as they are at run time: an instance is a
    class tag plus its attribute dictionary ([vars(self)]), instances live
    in a heap indexed by object identity, and a monitor's [children] list
    holds references into that heap, so that a child returned by
    [__call__] and the entry in its parent's list are one object.
    Methods are computations in a state-and-exception monad over the heap
    and the sink (the HDF5 store and the console).

    The environment a method reads ([time.time()], [os.getpid()], psutil,
    the outcome of file operations) is passed in as a record of readings. *)

From Stdlib Require Import ZArith QArith String.
From stdpp Require Import gmap strings list fin_maps.

Local Open Scope Z_scope.
Local Open Scope string_scope.
Local Open Scope list_scope.

(** ** Python floats

    [time.time()] and the record fields [time_sec] and [memory_mb] are
    binary64 floats.  The embedding is parametric in the float
    arithmetic, so that what is proved holds however sums are rounded. *)

Class PyFloat := {
  float : Type;
  fadd : float → float → float;
  fsub : float → float → float;
  fdiv : float → float → float;
  of_int : Z → float;          (* float(n) *)
  fnonzero : float → bool;     (* bool(x), that is x != 0.0 *)
  fle : float → float → bool;  (* x <= y *)
  ffinite : float → bool;      (* math.isfinite(x) *)
}.

(** The two facts about rounding that the monotonicity of [duration]
    rests on: the difference of two finite, ordered timestamps is not
    negative, and adding a non-negative amount to a finite sum does not
    decrease it.  They are stated of finite values only, so that they
    hold of binary64 with rounding to nearest, where [nan] compares
    false and [inf - inf] is [nan], as well as of exact arithmetic. *)
Class PyFloatOrder (PF : PyFloat) : Prop := {
  fle_fsub : ∀ a b, ffinite a = true → ffinite b = true →
                    fle a b = true → fle (of_int 0) (fsub b a) = true;
  fle_fadd : ∀ d e, ffinite d = true →
                    fle (of_int 0) e = true → fle d (fadd d e) = true;
}.

(** Exact rational arithmetic on reduced fractions, used to run the
    model on concrete inputs. *)
Definition Q_float : PyFloat := {|
  float := Q;
  fadd := λ x y, Qred (Qplus x y);
  fsub := λ x y, Qred (Qminus x y);
  fdiv := λ x y, Qred (Qdiv x y);
  of_int := inject_Z;
  fnonzero := λ x, negb (Qeq_bool x (inject_Z 0));
  fle := Qle_bool;
  ffinite := λ _, true;
|}.

Section Monitor.
Context {PF : PyFloat}.

(** ** Values, exceptions, objects *)

(** Object identity. *)
Definition loc := positive.

Inductive exn :=
  | AttributeError (attr : string)
  | KeyError (key : string)
  | TypeError
  | UnicodeEncodeError          (* a [str] that is not ASCII, as bytes *)
  | OverflowError               (* an [int] too large for a float *)
  | IOError
  | AccessDenied                (* psutil.AccessDenied *)
  | NoSuchProcess               (* psutil.NoSuchProcess *)
  | UserError (code : nat)      (* raised by the measured block *)
  | DanglingRef.                (* a reference outside the heap: never
                                   raised from a well-formed heap *)

Inductive val :=
  | VNone
  | VBool (b : bool)
  | VInt (z : Z)
  | VFloat (x : float)
  | VStr (s : string)
  | VList (l : list loc)        (* a list of monitors *)
  | VExc (e : exn).

Inductive cls := PerformanceMonitor | DummyMonitor.

Record obj := Obj { o_class : cls; o_vars : gmap string val }.

(** One row of dtype [perf_dt]. *)
Record record := Rec {
  r_operation : string;   (* (bytes, 50) *)
  r_time_sec : float;
  r_memory_mb : float;
  r_counts : Z;
}.

(** ** The world: heap and sink *)

(** Modelled from the spec: the destination store ([h5py.File] and
    [openquake.baselib.hdf5.Hdf5Dataset] are not embedded).  A store maps a path to a file; a file either lacks the
    dataset ['performance_data'] ([None]) or holds its rows, which are
    only ever appended to. *)
Record world := World {
  heap : gmap loc obj;
  files : gmap string (option (list record));
  console : list record;                 (* what [print] has written *)
}.

Definition set_heap (f : gmap loc obj → gmap loc obj) (w : world) : world :=
  World (f (heap w)) (files w) (console w).

(** What psutil answers for a process id. *)
Inductive probe := Rss (bytes : Z) | Denied | Vanished.

(** Whether the store misbehaves during a flush. *)
Inductive io_fault := NoFault | OpenFails | ExtendFails.

(** The readings a method call takes from its environment. *)
Record env := Env {
  now : float;           (* time.time() *)
  getpid : Z;            (* os.getpid() *)
  rss : Z → probe;       (* memory_info(psutil.Process(pid)).rss *)
  fault : io_fault;
}.

(** ** The monad of methods *)

Inductive res (A : Type) :=
  | Ret (a : A)
  | Raise (e : exn).
Global Arguments Ret {A} a.
Global Arguments Raise {A} e.

Definition M (A : Type) : Type := world → res A * world.

Global Instance M_ret : MRet M := λ A a w, (Ret a, w).
Global Instance M_bind : MBind M := λ A B f m w,
  match m w with
  | (Ret a, w') => f a w'
  | (Raise e, w') => (Raise e, w')
  end.

Definition raise {A} (e : exn) : M A := λ w, (Raise e, w).
Definition modify (f : world → world) : M unit := λ w, (Ret (), f w).
Definition lift {A} (r : res A) : M A := λ w, (r, w).

(** A computation that reads but never writes. *)
Definition pure {A} (m : M A) : Prop := ∀ w r w', m w = (r, w') → w' = w.

(** ** Attribute access *)

Definition get_obj (l : loc) : M obj := λ w,
  match heap w !! l with
  | Some o => (Ret o, w)
  | None => (Raise DanglingRef, w)
  end.

(** [self.a] for a data attribute. *)
Definition get_attr (l : loc) (a : string) : M val :=
  o ← get_obj l;
  match o_vars o !! a with
  | Some v => mret v
  | None => raise (AttributeError a)
  end.

(** The heap after [l.a = v] and after [vars(l).update(d)]. *)
Definition upd (l : loc) (a : string) (v : val) (w : world) : world :=
  set_heap (alter (λ o, Obj (o_class o) (<[a := v]> (o_vars o))) l) w.

Definition upd_vars (l : loc) (d : gmap string val) (w : world) : world :=
  set_heap (alter (λ o, Obj (o_class o) (d ∪ o_vars o)) l) w.

(** [self.a = v] *)
Definition set_attr (l : loc) (a : string) (v : val) : M unit :=
  get_obj l;; modify (upd l a v).

(** [vars(l).update(d)]: the entries of [d] win. *)
Definition update_vars (l : loc) (d : gmap string val) : M unit :=
  get_obj l;; modify (upd_vars l d).

(** [del d[k]] *)
Definition del_key (k : string) (d : gmap string val) : M (gmap string val) :=
  match d !! k with
  | Some _ => mret (delete k d)
  | None => raise (KeyError k)
  end.

(** A fresh instance of class [c] with an empty [__dict__]. *)
Definition alloc (c : cls) : M loc := λ w,
  let l := fresh (dom (heap w)) in
  (Ret l, set_heap (<[l := Obj c ∅]>) w).

(** Read-only views used in statements. *)
Definition attr (w : world) (l : loc) (a : string) : option val :=
  o ← heap w !! l; o_vars o !! a.

Definition class_of (w : world) (l : loc) : option cls :=
  o_class <$> heap w !! l.

Definition allocated (w : world) (l : loc) : Prop := is_Some (heap w !! l).

(** ** Python arithmetic and truth values *)

Definition truthy (v : val) : bool :=
  match v with
  | VNone => false
  | VBool b => b
  | VInt z => negb (Z.eqb z 0)
  | VFloat x => fnonzero x
  | VStr s => negb (String.eqb s "")
  | VList l => match l with [] => false | _ => true end
  | VExc _ => true
  end.

Inductive num := NInt (z : Z) | NFloat (x : float).

Definition as_num (v : val) : option num :=
  match v with
  | VBool b => Some (NInt (Z.b2z b))
  | VInt z => Some (NInt z)
  | VFloat x => Some (NFloat x)
  | _ => None
  end.

Definition to_float (n : num) : float :=
  match n with NInt z => of_int z | NFloat x => x end.

(** [a + b] and [a - b] on numbers; every use below has a number on one
    side, so any other operand is a [TypeError].  An [int] next to a
    float is converted by [of_int]: [duration] and [mem] start as the
    [int] 0 and grow by sums, so that an [int] beyond the range of a
    float is there only if the caller has put it. *)
Definition py_add (a b : val) : res val :=
  match as_num a, as_num b with
  | Some (NInt x), Some (NInt y) => Ret (VInt (x + y))
  | Some x, Some y => Ret (VFloat (fadd (to_float x) (to_float y)))
  | _, _ => Raise TypeError
  end.

Definition py_sub (a b : val) : res val :=
  match as_num a, as_num b with
  | Some (NInt x), Some (NInt y) => Ret (VInt (x - y))
  | Some x, Some y => Ret (VFloat (fsub (to_float x) (to_float y)))
  | _, _ => Raise TypeError
  end.

(** The conversion of an [int] to a float where Python checks its
    range: the largest float is [2^1024 - 2^971], and an [int] rounds to
    a float when its absolute value is below [2^1024 - 2^970];
    otherwise [OverflowError] is raised. *)
Definition float_max_int : Z := 2 ^ 1024 - 2 ^ 970.
Global Arguments float_max_int : simpl never.

Definition float_of_int (z : Z) : res float :=
  if Z.ltb (Z.abs z) float_max_int then Ret (of_int z) else Raise OverflowError.

Definition float_of_num (n : num) : res float :=
  match n with
  | NInt z => float_of_int z
  | NFloat x => Ret x
  end.

(** [a / c] for a non-zero float literal [c], as in [mon.mem / 1024.]:
    an [int] on the left is converted first. *)
Definition py_div_const (a : val) (c : float) : res val :=
  match as_num a with
  | Some n =>
      match float_of_num n with
      | Ret x => Ret (VFloat (fdiv x c))
      | Raise e => Raise e
      end
  | None => Raise TypeError
  end.

(** ** numpy: a tuple as a row of [perf_dt]

    A [str] is held as its UTF-8 bytes: it is ASCII when every byte is
    below 128.  The field [operation] is [(bytes, 50)]: numpy encodes
    the whole [str] as ASCII, raising [UnicodeEncodeError] when it is
    not, and cuts the bytes to the first 50.  The float fields convert
    an [int] with the range check of [float_of_int].  Conversions of
    anything but a string, respectively a number, are not modelled and
    raise. *)
Definition is_ascii_byte (c : Ascii.ascii) : bool :=
  match c with
  | Ascii.Ascii _ _ _ _ _ _ _ b7 => negb b7
  end.

Fixpoint is_ascii (s : string) : bool :=
  match s with
  | EmptyString => true
  | String c s' => is_ascii_byte c && is_ascii s'
  end.

Definition np_bytes50 (v : val) : res string :=
  match v with
  | VStr s => if is_ascii s then Ret (substring 0 50 s) else Raise UnicodeEncodeError
  | _ => Raise TypeError
  end.

Definition np_float (v : val) : res float :=
  match as_num v with
  | Some n => float_of_num n
  | None => Raise TypeError
  end.

Definition np_record (t : val * val * val) : res record :=
  let '(operation, time_sec, memory_mb) := t in
  match np_bytes50 operation, np_float time_sec, np_float memory_mb with
  | Ret o, Ret t, Ret m => Ret (Rec o t m 1)
  | Raise e, _, _ => Raise e
  | _, Raise e, _ => Raise e
  | _, _, Raise e => Raise e
  end.

Fixpoint np_array (data : list (val * val * val)) : res (list record) :=
  match data with
  | [] => Ret []
  | t :: data' =>
      match np_record t, np_array data' with
      | Ret r, Ret rs => Ret (r :: rs)
      | Raise e, _ => Raise e
      | _, Raise e => Raise e
      end
  end.

(** ** PerformanceMonitor *)

(** [__init__(self, operation, hdf5path, pid, autoflush, measuremem)] *)
Definition pm_init (E : env) (self : loc)
    (operation hdf5path pid autoflush measuremem : val) : M unit :=
  set_attr self "operation" operation;;
  set_attr self "hdf5path" hdf5path;;
  set_attr self "pid" pid;;
  set_attr self "autoflush" autoflush;;
  set_attr self "measuremem" measuremem;;
  set_attr self "mem" (VInt 0);;
  set_attr self "duration" (VInt 0);;
  set_attr self "_start_time" (VFloat (now E));;
  set_attr self "children" (VList []).

(** [psutil.Process(pid)] followed by [memory_info(proc).rss]. *)
Definition psutil_rss (E : env) (pid : val) : res val :=
  match pid with
  | VInt p =>
      match rss E p with
      | Rss b => Ret (VInt b)
      | Denied => Raise AccessDenied
      | Vanished => Raise NoSuchProcess
      end
  | VBool b =>
      match rss E (Z.b2z b) with
      | Rss b => Ret (VInt b)
      | Denied => Raise AccessDenied
      | Vanished => Raise NoSuchProcess
      end
  | _ => Raise TypeError
  end.

(** [measure_mem]: the result of the method is [None] when [self.pid] is
    false and when the [except] clause has run. *)
Definition measure_mem (E : env) (self : loc) : M val :=
  pid ← get_attr self "pid";
  if truthy pid then
    match psutil_rss E pid with
    | Ret b => mret b
    | Raise AccessDenied => set_attr self "pid" (VInt 0);; mret VNone
    | Raise e => raise e
    end
  else mret VNone.

(** [self.children] as the right operand of [[self] + ...]. *)
Definition get_children (self : loc) : M (list loc) :=
  c ← get_attr self "children";
  match c with
  | VList l => mret l
  | _ => raise TypeError
  end.

(** The loop of [get_data] over [monitors], building [data]. *)
Fixpoint collect (monitors : list loc) : M (list (val * val * val)) :=
  match monitors with
  | [] => mret []
  | mon :: rest =>
      d ← get_attr mon "duration";
      if truthy d then
        mm ← get_attr mon "measuremem";
        memory_mb ← (if truthy mm then
                       m ← get_attr mon "mem";
                       k ← lift (py_div_const m (of_int 1024));
                       lift (py_div_const k (of_int 1024))
                     else mret (VInt 0));
        operation ← get_attr mon "operation";
        data ← collect rest;
        mret ((operation, d, memory_mb) :: data)
      else collect rest
  end.

Definition get_data (self : loc) : M (list record) :=
  children ← get_children self;
  data ← collect (self :: children);   (* only direct children *)
  lift (np_array data).

(** The reset loop of [flush]. *)
Fixpoint reset (monitors : list loc) : M unit :=
  match monitors with
  | [] => mret ()
  | mon :: rest =>
      set_attr mon "duration" (VInt 0);;
      set_attr mon "mem" (VInt 0);;
      reset rest
  end.

(** The rows of ['performance_data'] in the file at [path]: none when
    the file or the dataset does not exist. *)
Definition rows (w : world) (path : string) : list record :=
  match files w !! path with
  | Some (Some rs) => rs
  | _ => []
  end.

(** Modelled from the spec: [h5py.File(path)], the lookup or creation of
    the dataset ['performance_data'], [pdata.extend(data)] and
    [h5.close()].  Open the destination, append the records to the
    dataset, creating it if the file lacks it, and close.  [fault E]
    says whether opening or appending fails; a failed append leaves the
    dataset, created if need be, without the new rows. *)
Definition h5_extend (E : env) (hdf5path : val) (data : list record) : M unit :=
  match hdf5path with
  | VStr path =>
      match fault E with
      | OpenFails => raise IOError
      | ExtendFails =>
          modify (λ w, World (heap w) (<[path := Some (rows w path)]> (files w))
                             (console w));;
          raise IOError
      | NoFault =>
          modify (λ w, World (heap w)
                             (<[path := Some (rows w path ++ data)]> (files w))
                             (console w))
      end
  | _ => raise TypeError
  end.

(** [for rec in data: print(rec)] *)
Definition print_all (data : list record) : M unit :=
  modify (λ w, World (heap w) (files w) (console w ++ data)).

(** The part of [flush] after the reset. *)
Definition write_out (E : env) (self : loc) (data : list record) : M unit :=
  match data with
  | [] => mret ()                       (* no information *)
  | _ =>
      hdf5path ← get_attr self "hdf5path";
      if truthy hdf5path then h5_extend E hdf5path data
      else print_all data
  end.

Definition pm_flush (E : env) (self : loc) : M unit :=
  data ← get_data self;
  children ← get_children self;
  reset (self :: children);;       (* reset monitors *)
  write_out E self data.

Definition pm_enter (E : env) (self : loc) : M loc :=
  pid ← get_attr self "pid";
  (match pid with
   | VNone => set_attr self "pid" (VInt (getpid E))
   | _ => mret ()
   end);;
  set_attr self "exc" VNone;;
  set_attr self "_start_time" (VFloat (now E));;
  mm ← get_attr self "measuremem";
  (if truthy mm then
     m ← measure_mem E self;
     set_attr self "start_mem" m
   else mret ());;
  mret self.

(** ** DummyMonitor *)

Definition dm_init (self : loc) (operation : val) : M unit :=
  set_attr self "operation" operation;;
  set_attr self "hdf5path" VNone;;
  set_attr self "pid" VNone.

(** Binding the arguments of [__call__(self, operation, **kw)]: an
    option named like a parameter is a [TypeError] (multiple values for
    the argument), raised before the body runs. *)
Definition bind_call (kw : gmap string val) : M unit :=
  match kw !! "self", kw !! "operation" with
  | None, None => mret ()
  | _, _ => raise TypeError
  end.

Definition dm_call (self : loc) (operation : val) (kw : gmap string val) : M loc :=
  bind_call kw;;
  new ← alloc DummyMonitor;
  dm_init new operation;;
  mret new.

Definition dm_enter (self : loc) : M loc := mret self.

Definition dm_exit (self : loc) (exc : option exn) : M val := mret VNone.

Definition dm_flush (self : loc) : M unit := mret ().

(** ** Dispatch on the class of the receiver *)

Definition get_class (self : loc) : M cls :=
  o ← get_obj self; mret (o_class o).

(** [cls(operation)]: the other parameters of [__init__] take their
    defaults [hdf5path=None], [pid=None], [autoflush=False],
    [measuremem=False]. *)
Definition construct (E : env) (c : cls) (operation : val) : M loc :=
  new ← alloc c;
  match c with
  | PerformanceMonitor =>
      pm_init E new operation VNone VNone (VBool false) (VBool false)
  | DummyMonitor => dm_init new operation
  end;;
  mret new.

(** [PerformanceMonitor(operation, hdf5path, pid, autoflush, measuremem)] *)
Definition pm_new (E : env) (operation hdf5path pid autoflush measuremem : val)
    : M loc :=
  new ← alloc PerformanceMonitor;
  pm_init E new operation hdf5path pid autoflush measuremem;;
  mret new.

Definition flush (E : env) (self : loc) : M unit :=
  c ← get_class self;
  match c with
  | PerformanceMonitor => pm_flush E self
  | DummyMonitor => dm_flush self
  end.

(** [on_exit] is inherited by every class. *)
Definition on_exit (E : env) (self : loc) : M unit :=
  af ← get_attr self "autoflush";
  if truthy af then flush E self else mret ().

Definition exc_val (exc : option exn) : val :=
  match exc with
  | Some e => VExc e
  | None => VNone
  end.

(** [__exit__]; its result is the method's return value, [None]. *)
Definition pm_exit (E : env) (self : loc) (exc : option exn) : M val :=
  set_attr self "exc" (exc_val exc);;
  mm ← get_attr self "measuremem";
  (if truthy mm then
     m ← measure_mem E self;
     set_attr self "stop_mem" m;;
     mem ← get_attr self "mem";
     stop_mem ← get_attr self "stop_mem";
     start_mem ← get_attr self "start_mem";
     delta ← lift (py_sub stop_mem start_mem);
     mem' ← lift (py_add mem delta);
     set_attr self "mem" mem'
   else mret ());;
  duration ← get_attr self "duration";
  start ← get_attr self "_start_time";
  elapsed ← lift (py_sub (VFloat (now E)) start);
  duration' ← lift (py_add duration elapsed);
  set_attr self "duration" duration';;
  on_exit E self;;
  mret VNone.

(** [__call__(self, operation, **kw)].  An option is stored in the child
    by value; where Python would share a list object passed as the
    option [children], the statements below that depend on it take
    options without that key. *)
Definition pm_call (E : env) (self : loc) (operation : val)
    (kw : gmap string val) : M loc :=
  bind_call kw;;
  o ← get_obj self;
  self_vars ← del_key "operation" (o_vars o);
  self_vars ← del_key "children" self_vars;
  self_vars ← del_key "pid" self_vars;
  new ← construct E (o_class o) operation;
  update_vars new self_vars;;
  update_vars new kw;;
  children ← get_attr self "children";
  match children with
  | VList l => set_attr self "children" (VList (l ++ [new]))
  | _ => raise (AttributeError "append")
  end;;
  mret new.

Definition call (E : env) (self : loc) (operation : val)
    (kw : gmap string val) : M loc :=
  c ← get_class self;
  match c with
  | PerformanceMonitor => pm_call E self operation kw
  | DummyMonitor => dm_call self operation kw
  end.

Definition enter (E : env) (self : loc) : M loc :=
  c ← get_class self;
  match c with
  | PerformanceMonitor => pm_enter E self
  | DummyMonitor => dm_enter self
  end.

Definition exit_ (E : env) (self : loc) (exc : option exn) : M val :=
  c ← get_class self;
  match c with
  | PerformanceMonitor => pm_exit E self exc
  | DummyMonitor => dm_exit self exc
  end.

(** [get_data] is not overridden: every class runs the same code. *)
Definition get_records (self : loc) : M (list record) := get_data self.

(** ** The [with] statement

    [with mon: body].  [__exit__] runs on every way out of the block; an
    error of the block propagates unless [__exit__] returns a true value,
    and an error raised by [__exit__] itself replaces it. *)
Definition with_ (E_in E_out : env) (mon : loc) (body : M unit) : M unit :=
  λ w,
    match enter E_in mon w with
    | (Raise e, w1) => (Raise e, w1)
    | (Ret _, w1) =>
        match body w1 with
        | (Ret _, w2) =>
            match exit_ E_out mon None w2 with
            | (Ret _, w3) => (Ret (), w3)
            | (Raise e', w3) => (Raise e', w3)
            end
        | (Raise e, w2) =>
            match exit_ E_out mon (Some e) w2 with
            | (Ret r, w3) => if truthy r then (Ret (), w3) else (Raise e, w3)
            | (Raise e', w3) => (Raise e', w3)
            end
        end
    end.

(** ** Repeated measurement *)

(** One enter/exit cycle of a monitor around a block that only lets time
    pass: the readings at entry, the readings at exit, and the error the
    block ends with, if any. *)
Record cycle := Cycle { c_enter : env; c_exit : env; c_exc : option exn }.

Definition elapsed (c : cycle) : float := fsub (now (c_exit c)) (now (c_enter c)).

Fixpoint run_cycles (self : loc) (cs : list cycle) : M unit :=
  match cs with
  | [] => mret ()
  | c :: cs' =>
      enter (c_enter c) self;;
      exit_ (c_exit c) self (c_exc c);;
      run_cycles self cs'
  end.

(** The sum the cycles [cs] add to an accumulated duration [x]. *)
Definition accumulate (x : float) (cs : list cycle) : float :=
  fold_left (λ acc c, fadd acc (elapsed c)) cs x.

(** The accumulated duration of [self], as a float, after the cycles
    [cs] have run from [w]. *)
Definition duration_after (w : world) (self : loc) (cs : list cycle) : option float :=
  match run_cycles self cs w with
  | (Ret _, w') => to_float <$> (attr w' self "duration" ≫= as_num)
  | (Raise _, _) => None
  end.

(** ** What the specification says a collection contains *)

(** A monitor as the collector reads it. *)
Record entry := Entry {
  e_operation : string;
  e_duration : num;
  e_mem : num;
  e_measuremem : bool;
}.

Definition entry_of (w : world) (mon : loc) : option entry :=
  match attr w mon "operation", attr w mon "duration",
        attr w mon "mem", attr w mon "measuremem" with
  | Some (VStr op), Some d, Some m, Some mm =>
      match as_num d, as_num m with
      | Some nd, Some nm => Some (Entry op nd nm (truthy mm))
      | _, _ => None
      end
  | _, _, _, _ => None
  end.

Definition nonzero (n : num) : bool :=
  match n with
  | NInt z => negb (Z.eqb z 0)
  | NFloat x => fnonzero x
  end.

Definition megabytes (m : num) : float :=
  fdiv (fdiv (to_float m) (of_int 1024)) (of_int 1024).

(** The record of an entry: the name cut to 50 bytes, the duration, the
    memory in megabytes or 0 when memory is not measured, and count 1. *)
Definition record_of (e : entry) : record :=
  Rec (substring 0 50 (e_operation e))
      (to_float (e_duration e))
      (if e_measuremem e then megabytes (e_mem e) else of_int 0)
      1.

(** An entry that [get_data] turns into a record or skips: its duration
    is zero, or its name is ASCII and its numbers are within the range
    of a float. *)
Definition num_in_range (n : num) : bool :=
  match n with
  | NInt z => Z.ltb (Z.abs z) float_max_int
  | NFloat _ => true
  end.

Definition convertible (e : entry) : bool :=
  negb (nonzero (e_duration e)) ||
  (is_ascii (e_operation e) && num_in_range (e_duration e) &&
   (negb (e_measuremem e) || num_in_range (e_mem e))).

(** One record for each entry with a non-zero duration, in order. *)
Definition records_of (es : list entry) : list record :=
  record_of <$> filter (λ e, nonzero (e_duration e) = true) es.

(** The children of a monitor, as a list of references. *)
Definition children_of (w : world) (self : loc) : option (list loc) :=
  match attr w self "children" with
  | Some (VList l) => Some l
  | _ => None
  end.

(** The world after the reset loop of [flush] over [monitors]. *)
Definition reset_world (monitors : list loc) (w : world) : world :=
  foldl (λ w mon, upd mon "mem" (VInt 0) (upd mon "duration" (VInt 0) w))
        w monitors.

(** [w'] differs from [w] at most in the attributes [A] of object [l]:
    every other attribute, the classes, the set of objects and the sink
    are the same. *)
Definition touches (l : loc) (A : list string) (w w' : world) : Prop :=
  (∀ l' a, l' ≠ l ∨ a ∉ A → attr w' l' a = attr w l' a) ∧
  (∀ l', class_of w' l' = class_of w l') ∧
  (∀ l', allocated w' l' ↔ allocated w l') ∧
  files w' = files w ∧ console w' = console w.

Definition framed {A} (l : loc) (S : list string) (m : M A) : Prop :=
  ∀ w r w', m w = (r, w') → touches l S w w'.

(** The instance dictionary [__call__] leaves in the new monitor: the
    options, over the parent's attributes without [operation],
    [children] and [pid], over what [__init__] has set. *)
Definition init_vars (E : env) (operation : val) : gmap string val :=
  <["children" := VList []]> (<["_start_time" := VFloat (now E)]> (
  <["duration" := VInt 0]> (<["mem" := VInt 0]> (
  <["measuremem" := VBool false]> (<["autoflush" := VBool false]> (
  <["pid" := VNone]> (<["hdf5path" := VNone]> (
  <["operation" := operation]> ∅)))))))).

Definition child_vars (E : env) (parent : gmap string val) (operation : val)
    (kw : gmap string val) : gmap string val :=
  kw ∪ (delete "pid" (delete "children" (delete "operation" parent))
        ∪ init_vars E operation).

End Monitor.

(** ** The spawning claim as the specification words it *)

Section Claimed.
Context {PF : PyFloat}.

Definition is_zero (v : val) : bool :=
  match as_num v with
  | Some n => negb (nonzero n)
  | None => false
  end.

(** A child that copies only [hdf5path], [autoflush] and [measuremem]
    from its parent and starts with both accumulators at zero. *)
Definition spawns_fresh_child (E : env) (w : world) (parent : loc)
    (operation : val) (kw : gmap string val) : Prop :=
  ∃ new w',
    call E parent operation kw w = (Ret new, w') ∧
    class_of w' new = class_of w parent ∧
    (kw !! "children" = None → attr w' new "children" = Some (VList [])) ∧
    (kw !! "pid" = None → attr w' new "pid" = Some VNone) ∧
    (∀ a, a ∈ ["hdf5path"; "autoflush"; "measuremem"] → kw !! a = None →
          attr w' new a = attr w parent a) ∧
    (kw !! "duration" = None → is_zero <$> attr w' new "duration" = Some true) ∧
    (kw !! "mem" = None → is_zero <$> attr w' new "mem" = Some true).

End Claimed.

(** ** Concrete runs

    The model on exact rational timestamps.  At time [t] the process
    occupies [t] megabytes, so that a cycle from 10 to 13 measures three
    seconds and three megabytes. *)

Module Run.

Definition at_time (t : Z) : env (PF := Q_float) :=
  Env (PF := Q_float) (inject_Z t) 4242 (λ _, Rss (t * 1048576)) NoFault.

(** psutil denies access to every process. *)
Definition denied_at (t : Z) : env (PF := Q_float) :=
  Env (PF := Q_float) (inject_Z t) 4242 (λ _, Denied) NoFault.

(** The store cannot be opened. *)
Definition unwritable_at (t : Z) : env (PF := Q_float) :=
  Env (PF := Q_float) (inject_Z t) 4242 (λ _, Rss (t * 1048576)) OpenFails.

Definition empty : world (PF := Q_float) := World ∅ ∅ [].

Definition from (cs : list (Z * Z)) : list (cycle (PF := Q_float)) :=
  (λ c, Cycle (at_time c.1) (at_time c.2) None) <$> cs.

(** [parent = PerformanceMonitor('parent', measuremem=True)] and
    [child = parent('child')]; then the parent is measured from 10 to 13
    and the child from 20 to 25 and from 30 to 32.  The parent is
    object 1 and the child object 2. *)
Definition measure : M (PF := Q_float) unit :=
  pm_new (at_time 0) (VStr "parent") VNone VNone (VBool false) (VBool true);;
  call (at_time 1) 1%positive (VStr "child") ∅;;
  run_cycles 1%positive (from [(10, 13)]);;
  run_cycles 2%positive (from [(20, 25); (30, 32)]).

Definition measured : world (PF := Q_float) := snd (measure empty).

(** [PerformanceMonitor('job', 'calc.hdf5')], measured from 10 to 14. *)
Definition store : M (PF := Q_float) unit :=
  pm_new (at_time 0) (VStr "job") (VStr "calc.hdf5") VNone (VBool false) (VBool false);;
  run_cycles 1%positive (from [(10, 14)]).

Definition stored : world (PF := Q_float) := snd (store empty).

(** [PerformanceMonitor('op', measuremem=True)], not yet entered. *)
Definition sampling : world (PF := Q_float) :=
  snd (pm_new (at_time 0) (VStr "op") VNone VNone (VBool false) (VBool true) empty).

(** [DummyMonitor('dummy')] *)
Definition dummy : world (PF := Q_float) :=
  snd (construct (at_time 0) DummyMonitor (VStr "dummy") empty).

End Run.

(** ** What a method may write *)

Section MoreDefs.
Context {PF : PyFloat}.

(** [w'] differs from [w] at most in attributes named in [A], of
    whatever object: the other attributes of every object, the classes
    and the set of objects are the same. *)
Definition only_attrs (A : list string) (w w' : world) : Prop :=
  (∀ l a, a ∉ A → attr w' l a = attr w l a) ∧
  (∀ l, class_of w' l = class_of w l) ∧
  (∀ l, allocated w' l ↔ allocated w l).

Definition writes {T} (A : list string) (m : M T) : Prop :=
  ∀ w r w', m w = (r, w') → only_attrs A w w'.

(** The attributes that measuring and flushing assign. *)
Definition measurement_attrs : list string :=
  ["pid"; "exc"; "_start_time"; "start_mem"; "stop_mem"; "mem"; "duration"].

End MoreDefs.

(** ** Sequences of calls *)

Section Traces.
Context {PF : PyFloat}.

(** The attributes [__init__] takes from its arguments. *)
Definition config_attrs : list string :=
  ["operation"; "hdf5path"; "autoflush"; "measuremem"].

(** Every object of [w] is still there in [w'], with its class and its
    configuration, and with a children list that has at most grown at
    its end. *)
Definition grows (w w' : world) : Prop :=
  ∀ l, allocated w l →
    allocated w' l ∧
    class_of w' l = class_of w l ∧
    (∀ a, a ∈ config_attrs → attr w' l a = attr w l a) ∧
    (∀ ch, children_of w l = Some ch →
           ∃ more, children_of w' l = Some (ch ++ more)).

(** The calls a client makes on a monitor. *)
Inductive op :=
  | OpEnter (E : env)
  | OpExit (E : env) (exc : option exn)
  | OpFlush (E : env)
  | OpCall (E : env) (operation : val) (kw : gmap string val)
  | OpRecords.

Definition run_op (self : loc) (o : op) : M unit :=
  match o with
  | OpEnter E => enter E self;; mret ()
  | OpExit E exc => exit_ E self exc;; mret ()
  | OpFlush E => flush E self
  | OpCall E operation kw => call E self operation kw;; mret ()
  | OpRecords => get_records self;; mret ()
  end.

(** The calls that assign [duration]: [__exit__], which adds to it and
    may flush, and [flush]. *)
Definition assigns_duration (o : op) : bool :=
  match o with
  | OpExit _ _ | OpFlush _ => true
  | _ => false
  end.

(** A sequence of calls, each on a monitor of its own, up to the first
    error. *)
Fixpoint run_ops (steps : list (loc * op)) : M unit :=
  match steps with
  | [] => mret ()
  | (self, o) :: rest => run_op self o;; run_ops rest
  end.

End Traces.

(** ** Memory samples *)

Section MemDefs.
Context {PF : PyFloat}.




End MemDefs.

(** ** Spawning in a row *)

Section Spawning.
Context {PF : PyFloat}.

(** [[parent(operation, **kw) for operation, kw in requests]], each call
    with the readings of its moment. *)
Fixpoint spawn_all (parent : loc) (requests : list (env * val * gmap string val))
    : M (list loc) :=
  match requests with
  | [] => mret []
  | (E, operation, kw) :: rest =>
      new ← call E parent operation kw;
      news ← spawn_all parent rest;
      mret (new :: news)
  end.

End Spawning.

(** ** The psutil interface chosen at import

    The module picks the names it calls psutil by from
    [psutil.__version__], which is a string: [>] and [>=] on strings
    compare character by character. *)

Definition str_gt (a b : string) : bool :=
  match String.compare a b with Gt => true | _ => false end.

Definition str_ge (a b : string) : bool :=
  match String.compare a b with Lt => false | _ => true end.

(** The method of [psutil.Process] that [memory_info(proc)] calls. *)
Definition memory_info (version : string) : string :=
  if str_gt version "2.0.0" then "memory_info"
  else if str_ge version "1.2.1" then "get_memory_info"
  else "get_memory_info".

(** The function of [psutil] that [virtual_memory()] calls. *)
Definition virtual_memory (version : string) : string :=
  if str_gt version "2.0.0" then "virtual_memory"
  else if str_ge version "1.2.1" then "virtual_memory"
  else "phymem_usage".

(** ** What collecting reads *)

Section Reads.
Context {PF : PyFloat}.

(** The attributes [get_data] reads of each monitor. *)
Definition collected_attrs : list string :=
  ["duration"; "measuremem"; "mem"; "operation"].

(** Two worlds in which the monitors [ms] exist alike and carry the same
    values in what [get_data] reads of them. *)
Definition same_readings (ms : list loc) (w1 w2 : world) : Prop :=
  Forall (λ l, class_of w2 l = class_of w1 l ∧
               Forall (λ a, attr w2 l a = attr w1 l a) collected_attrs) ms.

End Reads.

(** ** More concrete runs *)

Module Cases.
Import Run.

(** The sampled process has gone. *)
Definition vanished_at (t : Z) : env (PF := Q_float) :=
  Env (PF := Q_float) (inject_Z t) 4242 (λ _, Vanished) NoFault.



(** The monitor of [sampling], entered at 10 while psutil denies
    access. *)
Definition unsampled : world (PF := Q_float) :=
  snd (enter (denied_at 10) 1%positive sampling).



(** After [measure], the child gets a child of its own, object 3, which
    is measured from 60 to 70. *)
Definition grow : M (PF := Q_float) unit :=
  call (at_time 50) 2%positive (VStr "grandchild") ∅;;
  run_cycles 3%positive (from [(60, 70)]).

Definition grown : world (PF := Q_float) := snd (grow measured).

(** After [measure]: the parent gets a second child, object 3, which is
    measured from 41 to 42; then the parent is flushed. *)
Definition session : list (loc * op (PF := Q_float)) :=
  [(1%positive, OpCall (at_time 40) (VStr "late") ∅);
   (3%positive, OpEnter (at_time 41));
   (3%positive, OpExit (at_time 42) None);
   (1%positive, OpFlush (at_time 43))].

(** After [measure]: the parent gets a second child, which is measured
    from 41 to 42; then the records of the parent are collected. *)
Definition late_child : M (PF := Q_float) (list record) :=
  new ← call (at_time 40) 1%positive (VStr "late") ∅;
  run_cycles new (from [(41, 42)]);;
  get_records 1%positive.

(** [parent = PerformanceMonitor('é')] and [child = parent('child')];
    then the parent is measured from 1 to 2 and the child from 3 to 5.
    The name is not ASCII. *)
Definition accent : M (PF := Q_float) unit :=
  pm_new (at_time 0) (VStr "é") VNone VNone (VBool false) (VBool false);;
  call (at_time 0) 1%positive (VStr "child") ∅;;
  run_cycles 1%positive (from [(1, 2)]);;
  run_cycles 2%positive (from [(3, 5)]).

Definition accented : world (PF := Q_float) := snd (accent empty).



(** Two children asked for one after the other. *)
Definition two_requests : list (env (PF := Q_float) * val (PF := Q_float) * gmap string (val (PF := Q_float))) :=
  [(at_time 1, VStr "first", ∅); (at_time 2, VStr "second", ∅)].

End Cases.

(** * Proofs *)

(** ** Running the monad, reading and writing attributes *)

Section Basics.
Context {PF : PyFloat}.
Implicit Types (w : world) (l : loc) (a : string) (v : val).

Lemma bind_eq {A B} (m : M A) (f : A → M B) w :
  (x ← m; f x) w = match m w with
                   | (Ret x, w') => f x w'
                   | (Raise e, w') => (Raise e, w')
                   end.
Proof. reflexivity. Qed.

Lemma bind_ret_inv {A B} (m : M A) (f : A → M B) w b w' :
  (x ← m; f x) w = (Ret b, w') →
  ∃ x w1, m w = (Ret x, w1) ∧ f x w1 = (Ret b, w').
Proof.
  rewrite bind_eq. destruct (m w) as [[x|e] w1]; [eauto | discriminate].
Qed.

Lemma attr_allocated w l a v : attr w l a = Some v → allocated w l.
Proof.
  unfold attr, allocated. destruct (heap w !! l); [eauto | discriminate].
Qed.

Lemma get_attr_ret w l a v : attr w l a = Some v → get_attr l a w = (Ret v, w).
Proof.
  unfold attr, get_attr, get_obj. rewrite bind_eq.
  destruct (heap w !! l) as [o|]; simpl; [|discriminate].
  intros ->. reflexivity.
Qed.

Lemma get_attr_inv w l a v w' :
  get_attr l a w = (Ret v, w') → w' = w ∧ attr w l a = Some v.
Proof.
  unfold attr, get_attr, get_obj. rewrite bind_eq.
  destruct (heap w !! l) as [o|]; simpl; [|discriminate].
  destruct (o_vars o !! a); [|discriminate]. by intros [= -> ->].
Qed.

Lemma get_attr_missing w l a :
  allocated w l → attr w l a = None → get_attr l a w = (Raise (AttributeError a), w).
Proof.
  unfold attr, get_attr, get_obj, allocated. rewrite bind_eq.
  intros [o ->]; simpl. intros ->. reflexivity.
Qed.

Lemma set_attr_ret w l a v : allocated w l → set_attr l a v w = (Ret (), upd l a v w).
Proof.
  unfold set_attr, get_obj, allocated. rewrite bind_eq.
  intros [o ->]. reflexivity.
Qed.

Lemma set_attr_inv w l a v u w' :
  set_attr l a v w = (Ret u, w') → w' = upd l a v w ∧ allocated w l.
Proof.
  unfold set_attr, get_obj, allocated. rewrite bind_eq.
  destruct (heap w !! l) as [o|]; [|discriminate]. intros [= <- <-]. eauto.
Qed.

Lemma attr_upd_eq w l a v : allocated w l → attr (upd l a v w) l a = Some v.
Proof.
  unfold allocated, attr, upd, set_heap; simpl. intros [o Ho].
  rewrite lookup_alter_eq, Ho. simpl. apply lookup_insert_eq.
Qed.

Lemma attr_upd_ne w l a v l' a' :
  l' ≠ l ∨ a' ≠ a → attr (upd l a v w) l' a' = attr w l' a'.
Proof.
  unfold attr, upd, set_heap; simpl. intros Hne.
  destruct (decide (l' = l)) as [->|Hl].
  - rewrite lookup_alter_eq. destruct (heap w !! l) as [o|]; simpl; [|done].
    destruct Hne as [?|Ha]; [done|]. by rewrite lookup_insert_ne.
  - by rewrite lookup_alter_ne.
Qed.

Lemma class_of_upd w l a v l' : class_of (upd l a v w) l' = class_of w l'.
Proof.
  unfold class_of, upd, set_heap; simpl.
  destruct (decide (l' = l)) as [->|Hl].
  - rewrite lookup_alter_eq. by destruct (heap w !! l).
  - by rewrite lookup_alter_ne.
Qed.

Lemma allocated_upd w l a v l' : allocated (upd l a v w) l' ↔ allocated w l'.
Proof.
  unfold allocated, upd, set_heap; simpl.
  destruct (decide (l' = l)) as [->|Hl].
  - rewrite lookup_alter_eq. by rewrite fmap_is_Some.
  - by rewrite lookup_alter_ne.
Qed.

Lemma upd_id w l a v : attr w l a = Some v → upd l a v w = w.
Proof.
  unfold attr, upd, set_heap. destruct w as [h f c]; simpl.
  destruct (h !! l) as [o|] eqn:Ho; simpl; [|discriminate].
  intros Ha. f_equal. apply map_eq. intros l'.
  destruct (decide (l' = l)) as [->|Hl].
  - rewrite lookup_alter_eq, Ho. simpl. rewrite insert_id by done. by destruct o.
  - by rewrite lookup_alter_ne.
Qed.

End Basics.

(** ** Collecting records *)

Section Collect.
Context {PF : PyFloat}.
Implicit Types (w : world) (l : loc) (a : string) (v : val).

Lemma truthy_as_num v n : as_num v = Some n → truthy v = nonzero n.
Proof. destruct v; simpl; intros [= <-]; try done. by destruct b. Qed.

Lemma entry_of_inv w mon e :
  entry_of w mon = Some e →
  ∃ d m mm,
    attr w mon "operation" = Some (VStr (e_operation e)) ∧
    attr w mon "duration" = Some d ∧ as_num d = Some (e_duration e) ∧
    attr w mon "mem" = Some m ∧ as_num m = Some (e_mem e) ∧
    attr w mon "measuremem" = Some mm ∧ truthy mm = e_measuremem e.
Proof.
  unfold entry_of.
  destruct (attr w mon "operation") as [[]|]; try discriminate.
  destruct (attr w mon "duration") as [d|]; try discriminate.
  destruct (attr w mon "mem") as [m|]; try discriminate.
  destruct (attr w mon "measuremem") as [mm|]; try discriminate.
  destruct (as_num d) as [nd|] eqn:Hd; try discriminate.
  destruct (as_num m) as [nm|] eqn:Hm; try discriminate.
  intros [= <-]; simpl. eauto 10.
Qed.

Lemma float_of_num_ok n : num_in_range n = true → float_of_num n = Ret (to_float n).
Proof. destruct n as [z|x]; simpl; [|done]. unfold float_of_int. by intros ->. Qed.

Lemma float_of_int_0 : float_of_int 0 = Ret (of_int 0).
Proof. unfold float_of_int. by vm_compute (Z.abs 0 <? float_max_int)%Z. Qed.

Lemma np_array_cons t data :
  np_array (t :: data)
  = match np_record t, np_array data with
    | Ret r, Ret rs => Ret (r :: rs)
    | Raise e, _ => Raise e
    | _, Raise e => Raise e
    end.
Proof. reflexivity. Qed.

Lemma np_record_ok op d nd mb x :
  is_ascii op = true → as_num d = Some nd → num_in_range nd = true →
  np_float mb = Ret x →
  np_record (VStr op, d, mb) = Ret (Rec (substring 0 50 op) (to_float nd) x 1).
Proof.
  intros Hasc Hnd Hok Hmb. unfold np_record, np_bytes50.
  rewrite Hasc, Hmb. unfold np_float. by rewrite Hnd, (float_of_num_ok _ Hok).
Qed.

Lemma collect_spec w monitors es :
  mapM (entry_of w) monitors = Some es →
  Forall (λ e, convertible e = true) es →
  ∃ data, collect monitors w = (Ret data, w) ∧ np_array data = Ret (records_of es).
Proof.
  rewrite mapM_Some. induction 1 as [|mon e monitors es He _ IH]; simpl; intros Hok.
  - by exists [].
  - apply Forall_cons in Hok as [Hoke Hok]. destruct (IH Hok) as (data & Hrun & Hnp).
    apply entry_of_inv in He as (d & m & mm & Hop & Hd & Hnd & Hm & Hnm & Hmm & Ht).
    rewrite bind_eq, (get_attr_ret _ _ _ _ Hd), (truthy_as_num _ _ Hnd).
    unfold records_of. unfold convertible in Hoke.
    destruct (nonzero (e_duration e)) eqn:Hnz.
    + simpl in Hoke. apply andb_true_iff in Hoke as [Hoke Hmok].
      apply andb_true_iff in Hoke as [Hasc Hdok].
      rewrite filter_cons_True by done.
      rewrite bind_eq, (get_attr_ret _ _ _ _ Hmm), Ht.
      destruct (e_measuremem e) eqn:Hmeas.
      * simpl in Hmok.
        rewrite !bind_eq, (get_attr_ret _ _ _ _ Hm). unfold lift, py_div_const.
        rewrite Hnm, (float_of_num_ok _ Hmok). simpl.
        rewrite bind_eq, (get_attr_ret _ _ _ _ Hop), bind_eq, Hrun.
        eexists; split; [reflexivity|].
        rewrite np_array_cons,
          (np_record_ok _ _ _ _ (megabytes (e_mem e)) Hasc Hnd Hdok), Hnp; [|done].
        unfold record_of. by rewrite Hmeas.
      * rewrite bind_eq. simpl. rewrite bind_eq, (get_attr_ret _ _ _ _ Hop), bind_eq, Hrun.
        eexists; split; [reflexivity|].
        rewrite np_array_cons, (np_record_ok _ _ _ _ (of_int 0) Hasc Hnd Hdok), Hnp.
        -- unfold record_of. by rewrite Hmeas.
        -- unfold np_float. simpl. apply float_of_int_0.
    + rewrite filter_cons_False by (rewrite Hnz; done). eauto.
Qed.

Lemma get_children_ret w self ch :
  children_of w self = Some ch → get_children self w = (Ret ch, w).
Proof.
  unfold children_of, get_children. intros H. rewrite bind_eq.
  destruct (attr w self "children") as [c|] eqn:Hc; [|discriminate].
  rewrite (get_attr_ret _ _ _ _ Hc). destruct c; try discriminate.
  by injection H as ->.
Qed.

(** Collecting from a monitor reads the monitor and its direct children
    and nothing else, and returns, in that order, one record for each
    of them whose duration is not zero, provided these convert: the
    name cut to 50 bytes, the duration, the memory in megabytes (0 when
    memory is not measured) and the count 1.  The world is left as it
    is. *)
Lemma get_data_spec w self ch es :
  children_of w self = Some ch →
  mapM (entry_of w) (self :: ch) = Some es →
  Forall (λ e, convertible e = true) es →
  get_data self w = (Ret (records_of es), w).
Proof.
  intros Hch Hes Hok. unfold get_data.
  rewrite bind_eq, (get_children_ret _ _ _ Hch).
  destruct (collect_spec _ _ _ Hes Hok) as (data & Hrun & Hnp).
  rewrite bind_eq, Hrun. unfold lift. by rewrite Hnp.
Qed.

End Collect.

(** ** Reading without writing, and the reset loop *)

Section Reset.
Context {PF : PyFloat}.
Implicit Types (w : world) (l : loc) (a : string) (v : val).

Lemma pure_ret {A} (x : A) : pure (mret x).
Proof. by intros w r w' [= _ <-]. Qed.

Lemma pure_raise {A} e : pure (raise e : M A).
Proof. by intros w r w' [= _ <-]. Qed.

Lemma pure_lift {A} (r : res A) : pure (lift r).
Proof. by intros w r' w' [= _ <-]. Qed.

Lemma pure_bind {A B} (m : M A) (f : A → M B) :
  pure m → (∀ x, pure (f x)) → pure (x ← m; f x).
Proof.
  intros Hm Hf w r w'. rewrite bind_eq.
  destruct (m w) as [[x|e] w1] eqn:E; apply Hm in E as ->.
  - apply Hf.
  - by intros [= _ <-].
Qed.

Lemma pure_get_attr l a : pure (get_attr l a).
Proof.
  unfold get_attr, get_obj. apply pure_bind.
  - intros w r w'. destruct (heap w !! l); by intros [= _ <-].
  - intros o. destruct (o_vars o !! a); [apply pure_ret | apply pure_raise].
Qed.

Lemma pure_get_children self : pure (get_children self).
Proof.
  apply pure_bind; [apply pure_get_attr|].
  intros []; first [apply pure_ret | apply pure_raise].
Qed.

Lemma pure_collect monitors : pure (collect monitors).
Proof.
  induction monitors as [|mon rest IH]; simpl; [apply pure_ret|].
  apply pure_bind; [apply pure_get_attr|]. intros d.
  destruct (truthy d); [|done].
  apply pure_bind; [apply pure_get_attr|]. intros mm.
  apply pure_bind.
  { destruct (truthy mm); [|apply pure_ret].
    apply pure_bind; [apply pure_get_attr|]. intros m.
    apply pure_bind; [apply pure_lift|]. intros k. apply pure_lift. }
  intros mb. apply pure_bind; [apply pure_get_attr|]. intros op.
  apply pure_bind; [done|]. intros data. apply pure_ret.
Qed.

Lemma pure_get_data self : pure (get_data self).
Proof.
  apply pure_bind; [apply pure_get_children|]. intros ch.
  apply pure_bind; [apply pure_collect|]. intros data. apply pure_lift.
Qed.

Lemma collect_allocated monitors w data w' :
  collect monitors w = (Ret data, w') → Forall (allocated w) monitors.
Proof.
  revert data w'. induction monitors as [|mon rest IH]; simpl; intros data w' H; [constructor|].
  apply bind_ret_inv in H as (d & w1 & Hd & H).
  apply get_attr_inv in Hd as [-> Hd]. constructor; [by eapply attr_allocated|].
  destruct (truthy d); [|by eapply IH].
  apply bind_ret_inv in H as (mm & w1 & Hmm & H).
  apply pure_get_attr in Hmm as ->.
  apply bind_ret_inv in H as (mb & w1 & Hmb & H).
  assert (w1 = w) as ->.
  { revert Hmb. destruct (truthy mm); [|apply pure_ret].
    apply pure_bind; [apply pure_get_attr|]. intros m.
    apply pure_bind; [apply pure_lift|]. intros k. apply pure_lift. }
  apply bind_ret_inv in H as (op & w1 & Hop & H).
  apply pure_get_attr in Hop as ->.
  apply bind_ret_inv in H as (tl & w1 & Htl & H). by eapply IH.
Qed.

Lemma get_children_inv w self ch w' :
  get_children self w = (Ret ch, w') → w' = w ∧ children_of w self = Some ch.
Proof.
  intros H. pose proof (pure_get_children _ _ _ _ H) as ->. split; [done|].
  apply bind_ret_inv in H as (c & w1 & Hc & H).
  apply get_attr_inv in Hc as [-> Hc]. unfold children_of. rewrite Hc.
  destruct c; try discriminate. by injection H as ->.
Qed.

Lemma get_data_inv w self data w' :
  get_data self w = (Ret data, w') →
  w' = w ∧ ∃ ch, children_of w self = Some ch ∧ Forall (allocated w) (self :: ch).
Proof.
  intros H. pose proof (pure_get_data _ _ _ _ H) as ->. split; [done|].
  apply bind_ret_inv in H as (ch & w1 & Hch & H).
  apply get_children_inv in Hch as [-> Hch]. exists ch. split; [done|].
  apply bind_ret_inv in H as (d & w1 & Hd & H). by eapply collect_allocated.
Qed.

Lemma reset_world_cons mon ms w :
  reset_world (mon :: ms) w
  = reset_world ms (upd mon "mem" (VInt 0) (upd mon "duration" (VInt 0) w)).
Proof. reflexivity. Qed.

Lemma reset_ret ms w :
  Forall (allocated w) ms → reset ms w = (Ret (), reset_world ms w).
Proof.
  revert w. induction ms as [|mon ms IH]; intros w Hall; [done|].
  inversion_clear Hall as [|? ? Hmon Hms]. simpl reset.
  rewrite bind_eq, set_attr_ret by done.
  rewrite bind_eq, set_attr_ret by (by apply allocated_upd).
  rewrite reset_world_cons. apply IH.
  eapply Forall_impl; [exact Hms|]. intros l Hl. by rewrite !allocated_upd.
Qed.

Lemma files_reset_world ms w : files (reset_world ms w) = files w.
Proof. revert w. induction ms as [|mon ms IH]; intros w; [done|]. by rewrite reset_world_cons, IH. Qed.

Lemma console_reset_world ms w : console (reset_world ms w) = console w.
Proof. revert w. induction ms as [|mon ms IH]; intros w; [done|]. by rewrite reset_world_cons, IH. Qed.

Lemma class_of_reset_world ms w l : class_of (reset_world ms w) l = class_of w l.
Proof.
  revert w. induction ms as [|mon ms IH]; intros w; [done|].
  by rewrite reset_world_cons, IH, !class_of_upd.
Qed.

Lemma allocated_reset_world ms w l : allocated (reset_world ms w) l ↔ allocated w l.
Proof.
  revert w. induction ms as [|mon ms IH]; intros w; [done|].
  by rewrite reset_world_cons, IH, !allocated_upd.
Qed.

(** An attribute other than the two accumulators, or of a monitor that
    is not reset, keeps its value. *)
Lemma attr_reset_world_other ms w l a :
  l ∉ ms ∨ (a ≠ "duration" ∧ a ≠ "mem") →
  attr (reset_world ms w) l a = attr w l a.
Proof.
  revert w. induction ms as [|mon ms IH]; intros w Hne; [done|].
  rewrite reset_world_cons, IH.
  - rewrite !attr_upd_ne; [done| |].
    + destruct Hne as [Hl|[? ?]]; [left|by right]. intros ->. apply Hl. by left.
    + destruct Hne as [Hl|[? ?]]; [left|by right]. intros ->. apply Hl. by left.
  - destruct Hne as [Hl|?]; [left|by right]. intros ?. apply Hl. by right.
Qed.

(** An accumulator that is already zero stays zero. *)
Lemma attr_reset_world_zero ms w l a :
  (a = "duration" ∨ a = "mem") → attr w l a = Some (VInt 0) →
  attr (reset_world ms w) l a = Some (VInt 0).
Proof.
  revert w. induction ms as [|mon ms IH]; intros w Ha Hz; [done|].
  rewrite reset_world_cons. apply IH; [done|].
  assert (Hal : allocated w l) by (by eapply attr_allocated).
  destruct (decide (l = mon)) as [->|Hl].
  - destruct Ha as [-> | ->].
    + rewrite attr_upd_ne by (by right). by apply attr_upd_eq.
    + apply attr_upd_eq. by apply allocated_upd.
  - by rewrite !attr_upd_ne by (by left).
Qed.

(** Every monitor that is reset has both accumulators at zero. *)
Lemma attr_reset_world_in ms w l a :
  l ∈ ms → allocated w l → (a = "duration" ∨ a = "mem") →
  attr (reset_world ms w) l a = Some (VInt 0).
Proof.
  revert w. induction ms as [|mon ms IH]; intros w Hin Hal Ha.
  - by apply elem_of_nil in Hin.
  - rewrite reset_world_cons. destruct (decide (l = mon)) as [->|Hl].
    + apply attr_reset_world_zero; [done|]. destruct Ha as [-> | ->].
      * rewrite attr_upd_ne by (by right). by apply attr_upd_eq.
      * apply attr_upd_eq. by apply allocated_upd.
    + apply IH; [|by rewrite !allocated_upd|done].
      apply elem_of_cons in Hin as [?|?]; done.
Qed.

(** Resetting monitors whose accumulators are all zero changes nothing. *)
Lemma reset_world_id ms w :
  Forall (λ l, attr w l "duration" = Some (VInt 0) ∧ attr w l "mem" = Some (VInt 0)) ms →
  reset_world ms w = w.
Proof.
  induction 1 as [|mon ms [Hd Hm] _ IH]; [done|].
  rewrite reset_world_cons, (upd_id _ _ _ _ Hd), (upd_id _ _ _ _ Hm). apply IH.
Qed.

End Reset.

(** ** Frames: which attributes a method writes *)

(** Membership, non-membership and inclusion for lists of attribute names. *)
Ltac attrs :=
  first
    [ by (rewrite !elem_of_cons; auto 10)
    | by (rewrite !not_elem_of_cons; repeat split; first [discriminate | apply not_elem_of_nil])
    | by (intros ?; rewrite !elem_of_cons, ?elem_of_nil; tauto) ].


Section Frames.
Context {PF : PyFloat}.
Implicit Types (w : world) (l : loc) (a : string) (v : val) (S : list string).

Lemma touches_refl l S w : touches l S w w.
Proof. by repeat split. Qed.

Lemma touches_trans l S w1 w2 w3 :
  touches l S w1 w2 → touches l S w2 w3 → touches l S w1 w3.
Proof.
  intros (Ha & Hc & Hal & Hf & Hk) (Ha' & Hc' & Hal' & Hf' & Hk').
  repeat split.
  - intros l' a H. by rewrite Ha', Ha.
  - intros l'. by rewrite Hc', Hc.
  - intros H. by apply Hal, Hal'.
  - intros H. by apply Hal', Hal.
  - by rewrite Hf', Hf.
  - by rewrite Hk', Hk.
Qed.

Lemma touches_weaken l S S' w w' : S ⊆ S' → touches l S w w' → touches l S' w w'.
Proof.
  intros Hsub (Ha & Hc & Hal & Hf & Hk). repeat split; try done; try apply Hal.
  intros l' a [?|Hn]; apply Ha; [by left|right]. intros ?. by apply Hn, Hsub.
Qed.

Lemma touches_upd l S a v w : a ∈ S → touches l S w (upd l a v w).
Proof.
  intros Ha. repeat split; try apply allocated_upd.
  - intros l' a' [?|Hn]; apply attr_upd_ne; [by left|right]. by intros ->.
  - intros l'. apply class_of_upd.
Qed.

Lemma framed_ret {A} l S (x : A) : framed l S (mret x).
Proof. intros w r w' [= _ <-]. apply touches_refl. Qed.

Lemma framed_raise {A} l S e : framed l S (raise e : M A).
Proof. intros w r w' [= _ <-]. apply touches_refl. Qed.

Lemma framed_pure {A} l S (m : M A) : pure m → framed l S m.
Proof. intros Hm w r w' H. apply Hm in H as ->. apply touches_refl. Qed.

Lemma framed_bind {A B} l S (m : M A) (f : A → M B) :
  framed l S m → (∀ x, framed l S (f x)) → framed l S (x ← m; f x).
Proof.
  intros Hm Hf w r w'. rewrite bind_eq.
  destruct (m w) as [[x|e] w1] eqn:E; apply Hm in E.
  - intros H. apply Hf in H. by eapply touches_trans.
  - by intros [= _ <-].
Qed.

Lemma framed_set_attr l S a v : a ∈ S → framed l S (set_attr l a v).
Proof.
  intros Ha w r w'. unfold set_attr, get_obj. rewrite bind_eq.
  destruct (heap w !! l); intros [= _ <-]; [by apply touches_upd | apply touches_refl].
Qed.

Lemma framed_weaken {A} l S S' (m : M A) : S ⊆ S' → framed l S m → framed l S' m.
Proof. intros Hsub Hm w r w' H. eapply touches_weaken; [done|]. by eapply Hm. Qed.

Lemma framed_measure_mem E self : framed self ["pid"] (measure_mem E self).
Proof.
  apply framed_bind; [apply framed_pure, pure_get_attr|]. intros pid.
  destruct (truthy pid); [|apply framed_ret].
  destruct (psutil_rss E pid) as [b|[]]; try apply framed_raise; [apply framed_ret|].
  apply framed_bind; [|intros; apply framed_ret].
  apply framed_set_attr. attrs.
Qed.

Ltac frame :=
  repeat first
    [ apply framed_ret
    | apply framed_raise
    | apply framed_pure, pure_get_attr
    | apply framed_pure, pure_lift
    | apply framed_set_attr; attrs
    | eapply framed_weaken; [|apply framed_measure_mem]; attrs
    | apply framed_bind; [|intros ?]
    | match goal with
      | |- framed _ _ (if ?b then _ else _) => destruct b
      | |- framed _ _ (match ?v with _ => _ end) => destruct v
      end ].

Lemma mret_inv {A} (x y : A) w w' : (mret x : M A) w = (Ret y, w') → y = x ∧ w' = w.
Proof. by intros [= -> ->]. Qed.

Lemma lift_inv {A} (r : res A) (y : A) w w' : lift r w = (Ret y, w') → r = Ret y ∧ w' = w.
Proof. by intros [= -> ->]. Qed.

Lemma framed_pm_enter E self :
  framed self ["pid"; "exc"; "_start_time"; "start_mem"] (pm_enter E self).
Proof. unfold pm_enter. frame. Qed.

Lemma pm_enter_post E self w r w' :
  pm_enter E self w = (Ret r, w') →
  r = self ∧ attr w' self "_start_time" = Some (VFloat (now E)).
Proof.
  intros H. unfold pm_enter in H.
  apply bind_ret_inv in H as (pid & w1 & _ & H).
  apply bind_ret_inv in H as (? & w2 & _ & H).
  apply bind_ret_inv in H as (? & w3 & _ & H).
  apply bind_ret_inv in H as (? & w4 & Hst & H).
  apply set_attr_inv in Hst as [-> Hal].
  apply bind_ret_inv in H as (mm & w5 & Hmm & H).
  apply get_attr_inv in Hmm as [-> _].
  apply bind_ret_inv in H as (? & w6 & Hblk & H).
  apply mret_inv in H as [-> ->]. split; [done|].
  match type of Hblk with
  | ?m _ = _ => assert (Hfr : framed self ["pid"; "start_mem"] m) by frame
  end.
  apply Hfr in Hblk as (Ha & _). rewrite Ha by (right; attrs).
  by apply attr_upd_eq.
Qed.

Lemma on_exit_off E self w af :
  attr w self "autoflush" = Some af → truthy af = false →
  on_exit E self w = (Ret (), w).
Proof.
  intros Haf Ht. unfold on_exit. by rewrite bind_eq, (get_attr_ret _ _ _ _ Haf), Ht.
Qed.

Lemma pm_exit_post E self exc w r w' af :
  attr w self "autoflush" = Some af → truthy af = false →
  pm_exit E self exc w = (Ret r, w') →
  touches self ["exc"; "pid"; "stop_mem"; "mem"; "duration"] w w' ∧
  ∃ d start elapsed d',
    attr w self "duration" = Some d ∧ attr w self "_start_time" = Some start ∧
    py_sub (VFloat (now E)) start = Ret elapsed ∧ py_add d elapsed = Ret d' ∧
    attr w' self "duration" = Some d'.
Proof.
  intros Haf Ht H. unfold pm_exit in H.
  apply bind_ret_inv in H as (? & w1 & Hexc & H).
  assert (T1 : touches self ["exc"] w w1).
  { revert Hexc. apply framed_set_attr. attrs. }
  apply bind_ret_inv in H as (mm & w2 & Hmm & H).
  apply get_attr_inv in Hmm as [-> _].
  apply bind_ret_inv in H as (? & w2 & Hblk & H).
  assert (T2 : touches self ["pid"; "stop_mem"; "mem"] w1 w2).
  { match type of Hblk with
    | ?m _ = _ => assert (Hfr : framed self ["pid"; "stop_mem"; "mem"] m) by frame
    end.
    by apply Hfr in Hblk. }
  apply bind_ret_inv in H as (d & w3 & Hd & H).
  apply get_attr_inv in Hd as [-> Hd].
  apply bind_ret_inv in H as (start & w3 & Hs & H).
  apply get_attr_inv in Hs as [-> Hs].
  apply bind_ret_inv in H as (el & w3 & Hel & H).
  apply lift_inv in Hel as [Hel ->].
  apply bind_ret_inv in H as (d' & w3 & Hd' & H).
  apply lift_inv in Hd' as [Hd' ->].
  apply bind_ret_inv in H as (? & w3 & Hset & H).
  apply set_attr_inv in Hset as [-> Hal].
  apply bind_ret_inv in H as (? & w4 & Hoe & H).
  apply mret_inv in H as [-> ->].
  assert (T12 : touches self ["exc"; "pid"; "stop_mem"; "mem"] w w2).
  { eapply touches_trans; (eapply touches_weaken; [|eassumption]); attrs. }
  assert (Haf3 : attr (upd self "duration" d' w2) self "autoflush" = Some af).
  { rewrite attr_upd_ne by (by right). destruct T12 as (Ha & _).
    rewrite Ha by (right; attrs). done. }
  rewrite (on_exit_off _ _ _ _ Haf3 Ht) in Hoe. simplify_eq.
  split.
  - apply (touches_trans _ _ _ w2).
    + eapply touches_weaken; [|exact T12]. attrs.
    + apply touches_upd. attrs.
  - exists d, start, el, d'. destruct T12 as (Ha & _).
    rewrite <- !Ha by (right; attrs). repeat split; try done.
    by apply attr_upd_eq.
Qed.

End Frames.

(** ** Enter/exit cycles *)

Section Cycles.
Context {PF : PyFloat}.
Implicit Types (w : world) (l : loc) (a : string) (v : val) (c : cycle).

Lemma get_class_ret w self k : class_of w self = Some k → get_class self w = (Ret k, w).
Proof.
  unfold class_of, get_class, get_obj. rewrite bind_eq.
  destruct (heap w !! self); simpl; [|discriminate]. by intros [= ->].
Qed.

Lemma enter_pm E self w :
  class_of w self = Some PerformanceMonitor → enter E self w = pm_enter E self w.
Proof. intros H. unfold enter. by rewrite bind_eq, (get_class_ret _ _ _ H). Qed.

Lemma exit_pm E self exc w :
  class_of w self = Some PerformanceMonitor → exit_ E self exc w = pm_exit E self exc w.
Proof. intros H. unfold exit_. by rewrite bind_eq, (get_class_ret _ _ _ H). Qed.

Lemma flush_pm E self w :
  class_of w self = Some PerformanceMonitor → flush E self w = pm_flush E self w.
Proof. intros H. unfold flush. by rewrite bind_eq, (get_class_ret _ _ _ H). Qed.

Lemma py_add_elapsed d n e :
  as_num d = Some n → py_add d (VFloat e) = Ret (VFloat (fadd (to_float n) e)).
Proof. unfold py_add. intros ->. simpl. by destruct n. Qed.

(** One cycle of a monitor that does not flush on exit adds the elapsed
    time of the cycle to its duration. *)
Lemma cycle_post c self w r w' af d n :
  class_of w self = Some PerformanceMonitor →
  attr w self "autoflush" = Some af → truthy af = false →
  attr w self "duration" = Some d → as_num d = Some n →
  (enter (c_enter c) self;; exit_ (c_exit c) self (c_exc c)) w = (Ret r, w') →
  class_of w' self = Some PerformanceMonitor ∧
  attr w' self "autoflush" = Some af ∧
  attr w' self "duration" = Some (VFloat (fadd (to_float n) (elapsed c))).
Proof.
  intros Hc Haf Ht Hd Hn H.
  apply bind_ret_inv in H as (? & w1 & Hin & Hout).
  rewrite enter_pm in Hin by done.
  pose proof (framed_pm_enter _ _ _ _ _ Hin) as (Ha1 & Hc1 & _).
  apply pm_enter_post in Hin as [_ Hst].
  rewrite exit_pm in Hout by (by rewrite Hc1).
  assert (Haf1 : attr w1 self "autoflush" = Some af).
  { rewrite Ha1 by (right; attrs). done. }
  apply (pm_exit_post _ _ _ _ _ _ _ Haf1 Ht) in Hout
    as ((Ha2 & Hc2 & _) & d1 & st & el & d' & Hd1 & Hst1 & Hel & Hd' & Hdur).
  rewrite Hc2, Hc1. split; [done|]. split.
  { rewrite Ha2 by (right; attrs). done. }
  rewrite Hdur. f_equal.
  rewrite Ha1 in Hd1 by (right; attrs).
  assert (d1 = d) as -> by congruence.
  assert (st = VFloat (now (c_enter c))) as -> by congruence.
  simpl in Hel. injection Hel as <-.
  rewrite (py_add_elapsed _ _ _ Hn) in Hd'. by injection Hd' as <-.
Qed.

Lemma run_cycles_post self cs w r w' af d n :
  class_of w self = Some PerformanceMonitor →
  attr w self "autoflush" = Some af → truthy af = false →
  attr w self "duration" = Some d → as_num d = Some n →
  run_cycles self cs w = (Ret r, w') →
  class_of w' self = Some PerformanceMonitor ∧
  attr w' self "autoflush" = Some af ∧
  ∃ d' n', attr w' self "duration" = Some d' ∧ as_num d' = Some n' ∧
           to_float n' = accumulate (to_float n) cs.
Proof.
  revert w d n. induction cs as [|c cs IH]; intros w d n Hc Haf Ht Hd Hn H.
  - apply mret_inv in H as [_ ->]. eauto 10.
  - simpl in H.
    assert (H' : (x ← (enter (c_enter c) self;; exit_ (c_exit c) self (c_exc c));
                  run_cycles self cs) w = (Ret r, w')).
    { rewrite <- H. rewrite !bind_eq.
      destruct (enter (c_enter c) self w) as [[?|?] ?]; [|done]. by rewrite bind_eq. }
    apply bind_ret_inv in H' as (? & w1 & Hcyc & Hrest).
    destruct (cycle_post _ _ _ _ _ _ _ _ Hc Haf Ht Hd Hn Hcyc) as (Hc1 & Haf1 & Hd1).
    apply (IH _ _ (NFloat (fadd (to_float n) (elapsed c))) Hc1 Haf1 Ht Hd1 eq_refl) in Hrest.
    exact Hrest.
Qed.

Lemma run_cycles_app self cs1 cs2 w :
  run_cycles self (cs1 ++ cs2) w = (run_cycles self cs1;; run_cycles self cs2) w.
Proof.
  revert w. induction cs1 as [|c cs1 IH]; intros w; [done|].
  simpl. rewrite !bind_eq.
  destruct (enter (c_enter c) self w) as [[?|?] w1]; [|done].
  rewrite !bind_eq.
  destruct (exit_ (c_exit c) self (c_exc c) w1) as [[?|?] w2]; [|done].
  rewrite IH. by rewrite bind_eq.
Qed.

Lemma duration_after_ret self cs w r w' :
  run_cycles self cs w = (Ret r, w') →
  duration_after w self cs = to_float <$> (attr w' self "duration" ≫= as_num).
Proof. unfold duration_after. by intros ->. Qed.

End Cycles.

Lemma Q_float_order : PyFloatOrder Q_float.
Proof.
  split; simpl.
  - intros a b _ _. rewrite !Qle_bool_iff. intros H. rewrite Qred_correct.
    change (inject_Z 0) with 0%Q. by apply -> Qle_minus_iff.
  - intros a b _. rewrite !Qle_bool_iff. intros H. rewrite Qred_correct.
    change (inject_Z 0) with 0%Q in H.
    rewrite <- (Qplus_0_r a) at 1. by apply Qplus_le_r.
Qed.

(** ** Flush *)

Section FlushProofs.
Context {PF : PyFloat}.
Implicit Types (w : world) (l : loc) (a : string) (v : val).

Lemma attr_same_heap w w' l a : heap w' = heap w → attr w' l a = attr w l a.
Proof. unfold attr. by intros ->. Qed.

Lemma class_of_same_heap w w' l : heap w' = heap w → class_of w' l = class_of w l.
Proof. unfold class_of. by intros ->. Qed.

Lemma allocated_same_heap w w' l : heap w' = heap w → allocated w' l ↔ allocated w l.
Proof. unfold allocated. by intros ->. Qed.

Lemma children_of_same_attr w w' self :
  attr w' self "children" = attr w self "children" →
  children_of w' self = children_of w self.
Proof. unfold children_of. by intros ->. Qed.

(** Writing out touches the sink only. *)
Lemma write_out_heap E self data w r w' :
  write_out E self data w = (r, w') → heap w' = heap w.
Proof.
  unfold write_out. destruct data as [|rec data]; [by intros [= _ <-]|].
  rewrite bind_eq. destruct (get_attr self "hdf5path" w) as [[hp|e] w1] eqn:Hhp;
    apply pure_get_attr in Hhp as ->; [|by intros [= _ <-]].
  destruct (truthy hp); [|by intros [= _ <-]].
  unfold h5_extend. destruct hp; try by intros [= _ <-].
  destruct (fault E); by intros [= _ <-].
Qed.

Lemma write_out_nil E self w : write_out E self [] w = (Ret (), w).
Proof. reflexivity. Qed.

Lemma pm_flush_run E self w data w1 :
  get_data self w = (Ret data, w1) →
  ∃ ch, children_of w self = Some ch ∧ Forall (allocated w) (self :: ch) ∧
        pm_flush E self w = write_out E self data (reset_world (self :: ch) w).
Proof.
  intros Hdata. destruct (get_data_inv _ _ _ _ Hdata) as (-> & ch & Hch & Hall).
  exists ch. split; [done|]. split; [done|]. unfold pm_flush.
  rewrite bind_eq, Hdata, bind_eq, (get_children_ret _ _ _ Hch).
  by rewrite bind_eq, (reset_ret _ _ Hall).
Qed.

Lemma collect_zero monitors w :
  Forall (λ l, attr w l "duration" = Some (VInt 0)) monitors →
  collect monitors w = (Ret [], w).
Proof.
  induction 1 as [|mon monitors Hd _ IH]; [done|].
  simpl. by rewrite bind_eq, (get_attr_ret _ _ _ _ Hd).
Qed.

(** The state a flush leaves behind, whatever the sink did. *)
Lemma after_flush E self w data w1 r w' :
  get_data self w = (Ret data, w1) →
  pm_flush E self w = (r, w') →
  ∃ ch, children_of w self = Some ch ∧ Forall (allocated w) (self :: ch) ∧
        heap w' = heap (reset_world (self :: ch) w) ∧
        write_out E self data (reset_world (self :: ch) w) = (r, w').
Proof.
  intros Hdata Hfl. destruct (pm_flush_run E _ _ _ _ Hdata) as (ch & Hch & Hall & Heq).
  exists ch. rewrite Heq in Hfl. repeat split; try done.
  by eapply write_out_heap.
Qed.

Lemma zero_after_reset w w' ms :
  Forall (allocated w) ms → heap w' = heap (reset_world ms w) →
  Forall (λ l, attr w' l "duration" = Some (VInt 0) ∧ attr w' l "mem" = Some (VInt 0)) ms.
Proof.
  intros Hall Hh. apply Forall_forall. intros l Hl.
  rewrite !(attr_same_heap _ _ _ _ Hh).
  rewrite Forall_forall in Hall.
  split; apply attr_reset_world_in; auto.
Qed.

(** A monitor whose accumulators and those of its children are zero
    collects nothing, and flushing it changes nothing at all. *)
Lemma flushed_is_quiet E self w ch :
  class_of w self = Some PerformanceMonitor →
  children_of w self = Some ch →
  Forall (λ l, attr w l "duration" = Some (VInt 0) ∧ attr w l "mem" = Some (VInt 0))
         (self :: ch) →
  get_data self w = (Ret [], w) ∧ flush E self w = (Ret (), w).
Proof.
  intros Hc Hch Hz.
  assert (Hdata : get_data self w = (Ret [], w)).
  { unfold get_data. rewrite bind_eq, (get_children_ret _ _ _ Hch), bind_eq.
    rewrite collect_zero; [done|]. eapply Forall_impl; [exact Hz|]. by intros l [? _]. }
  split; [done|]. rewrite flush_pm by done.
  destruct (pm_flush_run E _ _ _ _ Hdata) as (ch' & Hch' & _ & ->).
  assert (ch' = ch) as -> by congruence.
  by rewrite (reset_world_id _ _ Hz).
Qed.

(** C4.  After a flush has returned, collecting the records of the
    monitor again yields the empty record set, and a second flush
    returns without changing anything: neither the monitors nor the
    sink. *)
Theorem flush_twice E E' w self w' :
  class_of w self = Some PerformanceMonitor →
  flush E self w = (Ret (), w') →
  get_records self w' = (Ret [], w') ∧ flush E' self w' = (Ret (), w').
Proof.
  intros Hc Hfl. rewrite flush_pm in Hfl by done.
  assert (∃ data, get_data self w = (Ret data, w)) as [data Hdata].
  { unfold pm_flush in Hfl. apply bind_ret_inv in Hfl as (data & w1 & Hdata & _).
    exists data. by rewrite (pure_get_data _ _ _ _ Hdata) in Hdata. }
  destruct (after_flush _ _ _ _ _ _ _ Hdata Hfl) as (ch & Hch & Hall & Hh & _).
  apply (flushed_is_quiet _ _ _ ch).
  - by rewrite (class_of_same_heap _ _ _ Hh), class_of_reset_world.
  - rewrite <- Hch. apply children_of_same_attr.
    rewrite (attr_same_heap _ _ _ _ Hh). apply attr_reset_world_other. by right.
  - by eapply zero_after_reset.
Qed.


(** Where the records convert, a flush leaves [duration] and [mem] at
    zero in the monitor and in each of its direct children and changes
    no other attribute of any object, no class and not the set of
    objects; in particular the children list is the same, and each
    child accumulates again from zero when it is entered and exited
    afterwards. *)
Lemma flush_resets_only_accumulators E w self ch es r w' :
  class_of w self = Some PerformanceMonitor →
  children_of w self = Some ch →
  mapM (entry_of w) (self :: ch) = Some es →
  Forall (λ e, convertible e = true) es →
  flush E self w = (r, w') →
  (∀ mon, mon ∈ self :: ch →
     attr w' mon "duration" = Some (VInt 0) ∧ attr w' mon "mem" = Some (VInt 0)) ∧
  (∀ l a, l ∉ self :: ch ∨ (a ≠ "duration" ∧ a ≠ "mem") → attr w' l a = attr w l a) ∧
  (∀ l, class_of w' l = class_of w l) ∧
  (∀ l, allocated w' l ↔ allocated w l) ∧
  children_of w' self = Some ch ∧
  (∀ child cs af w'',
     child ∈ ch → class_of w child = Some PerformanceMonitor →
     attr w child "autoflush" = Some af → truthy af = false →
     run_cycles child cs w' = (Ret (), w'') →
     duration_after w' child cs = Some (accumulate (of_int 0) cs)).
Proof.
  intros Hc Hch Hes Hok Hfl. rewrite flush_pm in Hfl by done.
  pose proof (get_data_spec _ _ _ _ Hch Hes Hok) as Hdata.
  destruct (after_flush _ _ _ _ _ _ _ Hdata Hfl) as (ch' & Hch' & Hall & Hh & _).
  assert (ch' = ch) as -> by congruence.
  pose proof (zero_after_reset _ _ _ Hall Hh) as Hz. rewrite Forall_forall in Hz.
  assert (Hother : ∀ l a, l ∉ self :: ch ∨ (a ≠ "duration" ∧ a ≠ "mem") →
                          attr w' l a = attr w l a).
  { intros l a Hla. rewrite (attr_same_heap _ _ _ _ Hh). by apply attr_reset_world_other. }
  assert (Hcls : ∀ l, class_of w' l = class_of w l).
  { intros l. by rewrite (class_of_same_heap _ _ _ Hh), class_of_reset_world. }
  split; [exact Hz|]. split; [exact Hother|]. split; [exact Hcls|]. split; [|split].
  - intros l. by rewrite (allocated_same_heap _ _ _ Hh), allocated_reset_world.
  - rewrite <- Hch. apply children_of_same_attr, Hother. by right.
  - intros child cs af w'' Hin Hcc Haf Ht Hrun.
    assert (Hd : attr w' child "duration" = Some (VInt 0)).
    { apply Hz. by right. }
    assert (Haf' : attr w' child "autoflush" = Some af).
    { rewrite Hother; [done|by right]. }
    rewrite <- Hcls in Hcc.
    rewrite (duration_after_ret _ _ _ _ _ Hrun).
    destruct (run_cycles_post _ _ _ _ _ _ _ _ Hcc Haf' Ht Hd eq_refl Hrun)
      as (_ & _ & d' & n' & -> & Hn' & Hacc).
    simpl in *. by rewrite Hn', <- Hacc.
Qed.

(** Where the records convert, flush has reset the accumulators of the
    monitor and of its direct children whatever happens afterwards,
    also when there is nothing to write; and when opening the store or
    appending to it fails, the error reaches the caller, nothing is
    printed, and a new collection finds nothing: the records are
    lost. *)
Lemma flush_resets_before_writing E w self ch es r w' :
  class_of w self = Some PerformanceMonitor →
  children_of w self = Some ch →
  mapM (entry_of w) (self :: ch) = Some es →
  Forall (λ e, convertible e = true) es →
  flush E self w = (r, w') →
  (∀ mon, mon ∈ self :: ch →
     attr w' mon "duration" = Some (VInt 0) ∧ attr w' mon "mem" = Some (VInt 0)) ∧
  (records_of es = [] → r = Ret ()) ∧
  (∀ path, records_of es ≠ [] →
     attr w self "hdf5path" = Some (VStr path) → path ≠ "" →
     fault E ≠ NoFault →
     r = Raise IOError ∧ console w' = console w ∧
     get_records self w' = (Ret [], w')).
Proof.
  intros Hc Hch Hes Hok Hfl. rewrite flush_pm in Hfl by done.
  pose proof (get_data_spec _ _ _ _ Hch Hes Hok) as Hdata.
  destruct (after_flush _ _ _ _ _ _ _ Hdata Hfl) as (ch' & Hch' & Hall & Hh & Hw).
  assert (ch' = ch) as -> by congruence.
  pose proof (zero_after_reset _ _ _ Hall Hh) as Hz.
  split; [by rewrite Forall_forall in Hz|]. split.
  { intros Hnil. rewrite Hnil in Hw. by injection Hw as <- _. }
  intros path Hne Hhp Hpath Hfault.
  assert (Hquiet : get_records self w' = (Ret [], w')).
  { apply (flushed_is_quiet E _ _ ch).
    - by rewrite (class_of_same_heap _ _ _ Hh), class_of_reset_world.
    - rewrite <- Hch. apply children_of_same_attr.
      rewrite (attr_same_heap _ _ _ _ Hh). apply attr_reset_world_other. by right.
    - done. }
  unfold write_out in Hw. destruct (records_of es) as [|rec data]; [done|].
  assert (Hhp' : attr (reset_world (self :: ch) w) self "hdf5path" = Some (VStr path)).
  { rewrite attr_reset_world_other; [done|by right]. }
  rewrite bind_eq, (get_attr_ret _ _ _ _ Hhp') in Hw. simpl in Hw.
  assert (Hp : String.eqb path "" = false) by (by apply String.eqb_neq).
  rewrite Hp in Hw. simpl in Hw.
  destruct (fault E); [done| |].
  - injection Hw as <- <-. repeat split; [|done].
    by rewrite console_reset_world.
  - unfold modify in Hw. rewrite bind_eq in Hw. injection Hw as <- <-.
    repeat split; [|done].
    simpl. by rewrite console_reset_world.
Qed.

End FlushProofs.

(** ** Spawning a child *)

Section Spawn.
Context {PF : PyFloat}.
Implicit Types (w : world) (l : loc) (a : string) (v : val).

Lemma fresh_not_allocated w : heap w !! fresh (dom (heap w)) = None.
Proof. apply not_elem_of_dom, is_fresh. Qed.

Lemma set_attr_insert l c vars a v h f k :
  set_attr l a v (World (<[l := Obj c vars]> h) f k)
  = (Ret (), World (<[l := Obj c (<[a := v]> vars)]> h) f k).
Proof.
  unfold set_attr, get_obj, modify, upd, set_heap. rewrite bind_eq. simpl.
  rewrite lookup_insert_eq. simpl. by rewrite alter_insert_eq.
Qed.

Lemma update_vars_insert l c vars d h f k :
  update_vars l d (World (<[l := Obj c vars]> h) f k)
  = (Ret (), World (<[l := Obj c (d ∪ vars)]> h) f k).
Proof.
  unfold update_vars, get_obj, modify, upd_vars, set_heap. rewrite bind_eq. simpl.
  rewrite lookup_insert_eq. simpl. by rewrite alter_insert_eq.
Qed.

Lemma construct_pm E operation w :
  construct E PerformanceMonitor operation w
  = (Ret (fresh (dom (heap w))),
     set_heap (<[fresh (dom (heap w)) := Obj PerformanceMonitor (init_vars E operation)]>) w).
Proof.
  destruct w as [h f k]. unfold construct, alloc, pm_init, set_heap. simpl.
  rewrite bind_eq. simpl. rewrite bind_eq.
  repeat (rewrite bind_eq, set_attr_insert).
  rewrite set_attr_insert. reflexivity.
Qed.

Lemma del_key_ret k (d : gmap string val) w :
  is_Some (d !! k) → del_key k d w = (Ret (delete k d), w).
Proof. unfold del_key. by intros [v ->]. Qed.

Lemma bind_call_ret kw w :
  kw !! "self" = None → kw !! "operation" = None → bind_call kw w = (Ret (), w).
Proof. unfold bind_call. by intros -> ->. Qed.

Lemma bind_call_inv kw w r w' :
  bind_call kw w = (r, w') →
  w' = w ∧ (r = Ret () ∧ kw !! "self" = None ∧ kw !! "operation" = None ∨
            r = Raise TypeError ∧ (is_Some (kw !! "self") ∨ is_Some (kw !! "operation"))).
Proof.
  unfold bind_call. destruct (kw !! "self"), (kw !! "operation");
    intros [= <- <-]; split; eauto 10.
Qed.

(** The world [__call__] leaves: the child with its dictionary, and the
    parent with the child appended to its list. *)
Lemma pm_call_run E w parent operation kw pvars ch :
  heap w !! parent = Some (Obj PerformanceMonitor pvars) →
  is_Some (pvars !! "operation") →
  pvars !! "children" = Some (VList ch) →
  is_Some (pvars !! "pid") →
  kw !! "self" = None → kw !! "operation" = None →
  let new := fresh (dom (heap w)) in
  pm_call E parent operation kw w
  = (Ret new,
     upd parent "children" (VList (ch ++ [new]))
       (set_heap (<[new := Obj PerformanceMonitor
                             (child_vars E pvars operation kw)]>) w)).
Proof.
  destruct w as [h f k]. simpl. intros Hp Hop Hch Hpid Hks Hko.
  set (new := fresh (dom h)). unfold pm_call, get_obj.
  rewrite bind_eq, bind_call_ret by done.
  rewrite bind_eq. simpl. rewrite Hp. simpl.
  rewrite bind_eq, del_key_ret by done.
  rewrite bind_eq, del_key_ret by (rewrite lookup_delete_ne by done; eauto).
  rewrite bind_eq, del_key_ret by (rewrite !lookup_delete_ne by done; eauto).
  rewrite bind_eq, construct_pm. unfold set_heap. simpl. fold new.
  rewrite bind_eq, update_vars_insert, bind_eq, update_vars_insert.
  assert (Hne : new ≠ parent).
  { intros Heq. pose proof (fresh_not_allocated (World h f k)) as Hf.
    simpl in Hf. fold new in Hf. rewrite Heq in Hf. congruence. }
  assert (Hattr : attr (World (<[new := Obj PerformanceMonitor
                     (kw ∪ (delete "pid" (delete "children" (delete "operation" pvars))
                            ∪ init_vars E operation))]> h) f k) parent "children"
                  = Some (VList ch)).
  { unfold attr. simpl. rewrite lookup_insert_ne by done. by rewrite Hp. }
  rewrite bind_eq, (get_attr_ret _ _ _ _ Hattr).
  rewrite bind_eq, set_attr_ret by (by eapply attr_allocated).
  reflexivity.
Qed.

Lemma init_vars_lookup E operation :
  init_vars E operation !! "operation" = Some operation ∧
  init_vars E operation !! "children" = Some (VList []) ∧
  init_vars E operation !! "pid" = Some VNone.
Proof. unfold init_vars. by repeat split; simplify_map_eq. Qed.

Lemma child_vars_kw E pvars operation kw a v :
  kw !! a = Some v → child_vars E pvars operation kw !! a = Some v.
Proof. intros H. unfold child_vars. by apply lookup_union_Some_l. Qed.

Lemma child_vars_fresh E pvars operation kw a :
  kw !! a = None → a ∈ ["operation"; "children"; "pid"] →
  child_vars E pvars operation kw !! a = init_vars E operation !! a.
Proof.
  intros Hkw Ha. unfold child_vars. rewrite lookup_union_r by done.
  apply lookup_union_r.
  rewrite !elem_of_cons, elem_of_nil in Ha.
  destruct Ha as [-> | [-> | [-> | []]]]; by simplify_map_eq.
Qed.

Lemma child_vars_parent E pvars operation kw a v :
  kw !! a = None → a ∉ ["operation"; "children"; "pid"] → pvars !! a = Some v →
  child_vars E pvars operation kw !! a = Some v.
Proof.
  intros Hkw Ha Hp. unfold child_vars. rewrite lookup_union_r by done.
  apply lookup_union_Some_l.
  rewrite !not_elem_of_cons in Ha. destruct Ha as (? & ? & ? & _).
  by rewrite !lookup_delete_ne.
Qed.

(** What [__call__] does on a [PerformanceMonitor], options named
    [self], [operation] or [children] apart.  It returns a new, so far
    unallocated, [PerformanceMonitor] and appends it to the parent's
    children.  The child's [operation] is the given name, its
    [children] list is empty and its [pid] is [None]; every other
    attribute the parent has is copied: not only [hdf5path],
    [autoflush] and [measuremem] but also the accumulators [duration]
    and [mem].  An option overrides any of this.  Nothing else changes. *)
Lemma call_copies_parent_attributes E w parent operation kw pvars ch :
  heap w !! parent = Some (Obj PerformanceMonitor pvars) →
  is_Some (pvars !! "operation") →
  pvars !! "children" = Some (VList ch) →
  is_Some (pvars !! "pid") →
  kw !! "self" = None → kw !! "operation" = None → kw !! "children" = None →
  ∃ new w',
    call E parent operation kw w = (Ret new, w') ∧
    ¬ allocated w new ∧
    class_of w' new = Some PerformanceMonitor ∧
    (∀ a v, kw !! a = Some v → attr w' new a = Some v) ∧
    attr w' new "operation" = Some operation ∧
    attr w' new "children" = Some (VList []) ∧
    (kw !! "pid" = None → attr w' new "pid" = Some VNone) ∧
    (∀ a v, kw !! a = None → a ∉ ["operation"; "children"; "pid"] →
            attr w parent a = Some v → attr w' new a = Some v) ∧
    attr w' parent "children" = Some (VList (ch ++ [new])) ∧
    (∀ l a, l ≠ new → l ≠ parent ∨ a ≠ "children" → attr w' l a = attr w l a) ∧
    files w' = files w ∧ console w' = console w.
Proof.
  intros Hp Hop Hch Hpid Hks Hko Hkc.
  set (new := fresh (dom (heap w))).
  assert (Hfresh : heap w !! new = None) by apply fresh_not_allocated.
  assert (Hne : new ≠ parent) by (intros Heq; rewrite Heq in Hfresh; congruence).
  eexists new, _. split.
  { unfold call. rewrite bind_eq, (get_class_ret _ _ PerformanceMonitor)
      by (unfold class_of; by rewrite Hp).
    by apply pm_call_run. }
  assert (Hnew : ∀ a, attr (upd parent "children" (VList (ch ++ [new]))
                         (set_heap (<[new := Obj PerformanceMonitor
                            (child_vars E pvars operation kw)]>) w)) new a
                      = child_vars E pvars operation kw !! a).
  { intros a. rewrite attr_upd_ne by (by left). unfold attr, set_heap. simpl.
    by rewrite lookup_insert_eq. }
  destruct (init_vars_lookup E operation) as (Hi1 & Hi2 & Hi3).
  split; [unfold allocated; rewrite Hfresh; by intros [? ?]|].
  split.
  { rewrite class_of_upd. unfold class_of, set_heap. simpl. by rewrite lookup_insert_eq. }
  split; [intros a v Hkw; rewrite Hnew; by apply child_vars_kw|].
  split; [rewrite Hnew, child_vars_fresh by (done || attrs); done|].
  split; [rewrite Hnew, child_vars_fresh by (done || attrs); done|].
  split; [intros Hkw; rewrite Hnew, child_vars_fresh by (done || attrs); done|].
  split.
  { intros a v Hkw Ha Hpa. rewrite Hnew. apply child_vars_parent; [done..|].
    unfold attr in Hpa. by rewrite Hp in Hpa. }
  split.
  { apply attr_upd_eq. unfold allocated, set_heap. simpl.
    rewrite lookup_insert_ne by done. by rewrite Hp. }
  split; [|done].
  intros l a Hl Hla. rewrite attr_upd_ne by done. unfold attr, set_heap. simpl.
  by rewrite lookup_insert_ne.
Qed.
End Spawn.

(** ** The null monitor *)

Section NullMonitor.
Context {PF : PyFloat}.
Implicit Types (w : world) (l : loc) (a : string) (v : val).

Lemma construct_dm E operation w :
  construct E DummyMonitor operation w
  = (Ret (fresh (dom (heap w))),
     set_heap (<[fresh (dom (heap w)) :=
                   Obj DummyMonitor (<["pid" := VNone]> (<["hdf5path" := VNone]>
                                     (<["operation" := operation]> ∅)))]>) w).
Proof.
  destruct w as [h f k]. unfold construct, alloc, dm_init, set_heap. simpl.
  rewrite bind_eq. simpl. rewrite bind_eq.
  repeat (rewrite bind_eq, set_attr_insert).
  rewrite set_attr_insert. reflexivity.
Qed.

Lemma dm_call_run E self operation kw w :
  kw !! "self" = None → kw !! "operation" = None →
  dm_call self operation kw w = construct E DummyMonitor operation w.
Proof.
  intros Hks Hko. unfold dm_call, construct.
  by rewrite bind_eq, bind_call_ret by done.
Qed.

(** X18.  Entering, exiting and flushing a [DummyMonitor] do nothing, and
    calling it, with options that are not named like the parameters
    [self] and [operation], allocates one more [DummyMonitor] and
    touches nothing else. *)
Lemma dummy_noop E self exc operation kw w :
  class_of w self = Some DummyMonitor →
  kw !! "self" = None → kw !! "operation" = None →
  enter E self w = (Ret self, w) ∧
  exit_ E self exc w = (Ret VNone, w) ∧
  flush E self w = (Ret (), w) ∧
  ∃ new w', call E self operation kw w = (Ret new, w') ∧
            ¬ allocated w new ∧ class_of w' new = Some DummyMonitor ∧
            (∀ l, l ≠ new → heap w' !! l = heap w !! l) ∧
            files w' = files w ∧ console w' = console w.
Proof.
  intros Hc Hks Hko. unfold enter, exit_, flush, call.
  rewrite !bind_eq, !(get_class_ret _ _ _ Hc). repeat split; try done.
  eexists _, _. split.
  { rewrite (dm_call_run E) by done. apply construct_dm. }
  split; [unfold allocated; rewrite fresh_not_allocated; by intros [? ?]|].
  split; [unfold class_of, set_heap; simpl; by rewrite lookup_insert_eq|].
  split; [|done]. intros l Hl. unfold set_heap. simpl. by rewrite lookup_insert_ne.
Qed.

(** C9, where the code departs from it.  [get_data] is inherited as it
    is, and [DummyMonitor.__init__] sets neither [children] nor
    [duration]: collecting the records of any newly made
    [DummyMonitor] raises [AttributeError] instead of returning the
    empty record set. *)
Theorem dummy_get_records_raises E operation w :
  (d ← construct E DummyMonitor operation; get_records d) w
  = (Raise (AttributeError "children"), snd (construct E DummyMonitor operation w)).
Proof.
  rewrite bind_eq, construct_dm. simpl.
  unfold get_records, get_data, get_children.
  rewrite !bind_eq, get_attr_missing; [done| |].
  - unfold allocated, set_heap. simpl. by rewrite lookup_insert_eq.
  - unfold attr, set_heap. simpl. rewrite lookup_insert_eq. simpl. by simplify_map_eq.
Qed.
End NullMonitor.

(** ** The [with] statement *)

Section WithStatement.
Context {PF : PyFloat}.
Implicit Types (w : world) (l : loc) (a : string) (v : val).



(** X7.  Once sampling is off ([pid] is false), [measure_mem] returns [None]
    and the subtraction in [__exit__] of a monitor that measures memory
    raises [TypeError], whatever the sample at entry was: the elapsed
    time is not added and [on_exit] is not reached. *)
Lemma pm_exit_without_sample E self exc w mm pid m s :
  attr w self "measuremem" = Some mm → truthy mm = true →
  attr w self "pid" = Some pid → truthy pid = false →
  attr w self "mem" = Some m →
  attr w self "start_mem" = Some s →
  pm_exit E self exc w
  = (Raise TypeError,
     upd self "stop_mem" VNone (upd self "exc" (exc_val exc) w)).
Proof.
  intros Hmm Ht Hpid Htp Hm Hs. unfold pm_exit.
  assert (Hal : allocated w self) by (by eapply attr_allocated).
  rewrite bind_eq, set_attr_ret by done.
  rewrite bind_eq, (get_attr_ret _ _ _ mm) by (by rewrite attr_upd_ne by (by right)).
  rewrite Ht, !bind_eq. unfold measure_mem.
  rewrite bind_eq, (get_attr_ret _ _ _ pid) by (by rewrite attr_upd_ne by (by right)).
  rewrite Htp. simpl.
  rewrite bind_eq, set_attr_ret by (by apply allocated_upd).
  rewrite bind_eq, (get_attr_ret _ _ _ m) by (by rewrite !attr_upd_ne by (by right)).
  rewrite bind_eq, (get_attr_ret _ _ _ VNone)
    by (apply attr_upd_eq; by apply allocated_upd).
  rewrite bind_eq, (get_attr_ret _ _ _ s) by (by rewrite !attr_upd_ne by (by right)).
  reflexivity.
Qed.

End WithStatement.

(** ** The attributes each method assigns *)

Section Writes.
Context {PF : PyFloat}.
Implicit Types (w : world) (l : loc) (a : string) (v : val) (A : list string).

Lemma only_attrs_refl A w : only_attrs A w w.
Proof. by repeat split. Qed.

Lemma only_attrs_trans A w1 w2 w3 :
  only_attrs A w1 w2 → only_attrs A w2 w3 → only_attrs A w1 w3.
Proof.
  intros (Ha & Hc & Hal) (Ha' & Hc' & Hal'). repeat split.
  - intros l a H. by rewrite Ha', Ha.
  - intros l. by rewrite Hc', Hc.
  - intros H. by apply Hal, Hal'.
  - intros H. by apply Hal', Hal.
Qed.

Lemma only_attrs_weaken A A' w w' : A ⊆ A' → only_attrs A w w' → only_attrs A' w w'.
Proof.
  intros Hsub (Ha & Hc & Hal). repeat split; try done; try apply Hal.
  intros l a Hn. apply Ha. intros ?. by apply Hn, Hsub.
Qed.

Lemma only_attrs_same_heap A w w' : heap w' = heap w → only_attrs A w w'.
Proof.
  intros Hh. repeat split.
  - intros l a _. by apply attr_same_heap.
  - intros l. by apply class_of_same_heap.
  - by apply allocated_same_heap.
  - by apply allocated_same_heap.
Qed.

Lemma writes_ret {T} A (x : T) : writes A (mret x).
Proof. intros w r w' [= _ <-]. apply only_attrs_refl. Qed.

Lemma writes_raise {T} A e : writes A (raise e : M T).
Proof. intros w r w' [= _ <-]. apply only_attrs_refl. Qed.

Lemma writes_pure {T} A (m : M T) : pure m → writes A m.
Proof. intros Hm w r w' H. apply Hm in H as ->. apply only_attrs_refl. Qed.

Lemma writes_bind {T U} A (m : M T) (f : T → M U) :
  writes A m → (∀ x, writes A (f x)) → writes A (x ← m; f x).
Proof.
  intros Hm Hf w r w'. rewrite bind_eq.
  destruct (m w) as [[x|e] w1] eqn:E; apply Hm in E.
  - intros H. apply Hf in H. by eapply only_attrs_trans.
  - by intros [= _ <-].
Qed.

Lemma writes_weaken {T} A A' (m : M T) : A ⊆ A' → writes A m → writes A' m.
Proof. intros Hsub Hm w r w' H. eapply only_attrs_weaken; [done|]. by eapply Hm. Qed.

Lemma writes_set_attr A l a v : a ∈ A → writes A (set_attr l a v).
Proof.
  intros Ha w r w'. unfold set_attr, get_obj. rewrite bind_eq.
  destruct (heap w !! l); intros [= _ <-]; [|apply only_attrs_refl].
  repeat split; try apply allocated_upd.
  - intros l' a' Hn. apply attr_upd_ne. right. by intros ->.
  - intros l'. apply class_of_upd.
Qed.

Lemma pure_get_class self : pure (get_class self).
Proof.
  unfold get_class. apply pure_bind.
  - intros w r w'. unfold get_obj. destruct (heap w !! self); by intros [= _ <-].
  - intros o. apply pure_ret.
Qed.

(** One step of a proof that a method body writes only [A]; [leaf]
    settles the calls of other methods. *)
Ltac writes_with leaf :=
  repeat first
    [ lazymatch goal with
      | |- writes _ (mbind _ _) => apply writes_bind; [|intros ?]
      | |- writes _ (mret _) => apply writes_ret
      | |- writes _ (raise _) => apply writes_raise
      | |- writes _ (lift _) => apply writes_pure, pure_lift
      | |- writes _ (get_attr _ _) => apply writes_pure, pure_get_attr
      | |- writes _ (get_class _) => apply writes_pure, pure_get_class
      | |- writes _ (get_data _) => apply writes_pure, pure_get_data
      | |- writes _ (get_children _) => apply writes_pure, pure_get_children
      | |- writes _ (set_attr _ _ _) => apply writes_set_attr; attrs
      | |- writes _ (if ?b then _ else _) => destruct b
      | |- writes _ (match ?v with _ => _ end) => destruct v
      end
    | leaf ].

Lemma writes_measure_mem E self : writes ["pid"] (measure_mem E self).
Proof. unfold measure_mem. writes_with fail. Qed.

Lemma writes_reset monitors : writes ["duration"; "mem"] (reset monitors).
Proof.
  induction monitors as [|mon rest IH]; simpl; writes_with ltac:(exact IH).
Qed.

Lemma writes_write_out E self data A : writes A (write_out E self data).
Proof. intros w r w' H. eapply only_attrs_same_heap, write_out_heap, H. Qed.

Lemma writes_flush E self : writes ["duration"; "mem"] (flush E self).
Proof.
  unfold flush, pm_flush, dm_flush.
  writes_with ltac:(first [apply writes_reset | apply writes_write_out]).
Qed.

Lemma writes_pm_enter E self : writes measurement_attrs (pm_enter E self).
Proof.
  unfold pm_enter, measurement_attrs.
  writes_with ltac:(eapply writes_weaken; [|apply writes_measure_mem]; attrs).
Qed.

Lemma writes_pm_exit E self exc : writes measurement_attrs (pm_exit E self exc).
Proof.
  unfold pm_exit, on_exit, measurement_attrs.
  writes_with ltac:(first
    [ eapply writes_weaken; [|apply writes_measure_mem]; attrs
    | eapply writes_weaken; [|apply writes_flush]; attrs ]).
Qed.
End Writes.

(** ** The hierarchy only grows *)

Section Grows.
Context {PF : PyFloat}.
Implicit Types (w : world) (l : loc) (a : string) (v : val) (A : list string).

Lemma grows_refl w : grows w w.
Proof.
  intros l Hal. repeat split; try done. intros ch Hch. exists []. by rewrite app_nil_r.
Qed.

Lemma grows_trans w1 w2 w3 : grows w1 w2 → grows w2 w3 → grows w1 w3.
Proof.
  intros H12 H23 l Hal.
  destruct (H12 l Hal) as (Hal2 & Hc2 & Ha2 & Hch2).
  destruct (H23 l Hal2) as (Hal3 & Hc3 & Ha3 & Hch3).
  repeat split; [done|congruence| |].
  - intros a Ha. by rewrite Ha3, Ha2.
  - intros ch Hch. destruct (Hch2 ch Hch) as [m1 H1].
    destruct (Hch3 _ H1) as [m2 H2]. exists (m1 ++ m2). by rewrite app_assoc.
Qed.

Lemma only_attrs_grows w w' : only_attrs measurement_attrs w w' → grows w w'.
Proof.
  intros (Ha & Hc & Hal) l Hl. repeat split; [by apply Hal|done| |].
  - intros a Hin. apply Ha. unfold config_attrs in Hin. unfold measurement_attrs.
    rewrite !elem_of_cons, elem_of_nil in Hin.
    destruct Hin as [->|[->|[->|[->|[]]]]]; attrs.
  - intros ch Hch. exists []. rewrite app_nil_r, <- Hch.
    apply children_of_same_attr, Ha. unfold measurement_attrs. attrs.
Qed.

Lemma grows_insert_fresh w new o :
  heap w !! new = None → grows w (set_heap (<[new := o]>) w).
Proof.
  intros Hnew l [ol Hl].
  assert (Hne : new ≠ l) by (intros ->; congruence).
  assert (Hh : heap (set_heap (<[new := o]>) w) !! l = heap w !! l).
  { unfold set_heap. simpl. by rewrite lookup_insert_ne. }
  repeat split.
  - unfold allocated. rewrite Hh, Hl. eauto.
  - unfold class_of. by rewrite Hh.
  - intros a _. unfold attr. by rewrite Hh.
  - intros ch Hch. exists []. rewrite app_nil_r, <- Hch.
    apply children_of_same_attr. unfold attr. by rewrite Hh.
Qed.

Lemma grows_append w self ch more :
  children_of w self = Some ch →
  grows w (upd self "children" (VList (ch ++ more)) w).
Proof.
  intros Hch l Hal. repeat split.
  - by apply allocated_upd.
  - apply class_of_upd.
  - intros a Ha. apply attr_upd_ne. right. intros ->.
    assert (Hn : "children" ∉ config_attrs) by (unfold config_attrs; attrs).
    by apply Hn.
  - intros ch' Hch'. destruct (decide (l = self)) as [->|Hne].
    + assert (ch' = ch) as -> by congruence. exists more.
      unfold children_of. by rewrite attr_upd_eq.
    + exists []. rewrite app_nil_r, <- Hch'.
      apply children_of_same_attr, attr_upd_ne. by left.
Qed.
End Grows.

Section GrowsCall.
Context {PF : PyFloat}.
Implicit Types (w : world) (l : loc) (a : string) (v : val) (A : list string).

(** What a constructor leaves: one more object, at a fresh place. *)
Lemma construct_run E c operation w :
  ∃ vars, construct E c operation w
          = (Ret (fresh (dom (heap w))),
             set_heap (<[fresh (dom (heap w)) := Obj c vars]>) w).
Proof.
  destruct c; eexists; [apply construct_pm | apply construct_dm].
Qed.

Lemma del_key_none k (d : gmap string val) w :
  d !! k = None → del_key k d w = (Raise (KeyError k), w).
Proof. unfold del_key. by intros ->. Qed.

Lemma attr_insert_fresh w new o l a :
  heap w !! new = None → allocated w l →
  attr (set_heap (<[new := o]>) w) l a = attr w l a.
Proof.
  intros Hf [o' Ho]. unfold attr, set_heap. simpl.
  by rewrite lookup_insert_ne by (intros <-; congruence).
Qed.

(** [__call__] keeps what there is, the parent's [children] apart. *)
Lemma pm_call_frame E self operation kw w r w' :
  pm_call E self operation kw w = (r, w') →
  grows w w' ∧
  (∀ l a, allocated w l → a ≠ "children" → attr w' l a = attr w l a).
Proof.
  assert (Hrefl : grows w w ∧ ∀ l a, allocated w l → a ≠ "children" →
                                     attr w l a = attr w l a)
    by (split; [apply grows_refl|done]).
  unfold pm_call. rewrite bind_eq.
  destruct (bind_call kw w) as [[[]|e] w0] eqn:Hb;
    apply bind_call_inv in Hb as [-> _]; [|by intros [= _ <-]].
  rewrite bind_eq.
  destruct (get_obj self w) as [[o|e] w0] eqn:Ho.
  2:{ unfold get_obj in Ho. destruct (heap w !! self); simplify_eq.
      by intros [= _ <-]. }
  assert (w0 = w) as ->.
  { unfold get_obj in Ho. by destruct (heap w !! self); simplify_eq. }
  destruct (o_vars o !! "operation") as [v1|] eqn:H1;
    [|rewrite bind_eq, del_key_none by done; by intros [= _ <-]].
  rewrite bind_eq, del_key_ret by eauto.
  destruct (delete "operation" (o_vars o) !! "children") as [v2|] eqn:H2;
    [|rewrite bind_eq, del_key_none by done; by intros [= _ <-]].
  rewrite bind_eq, del_key_ret by eauto.
  destruct (delete "children" (delete "operation" (o_vars o)) !! "pid") as [v3|] eqn:H3;
    [|rewrite bind_eq, del_key_none by done; by intros [= _ <-]].
  rewrite bind_eq, del_key_ret by eauto.
  rewrite bind_eq. clear Hrefl.
  destruct (construct_run E (o_class o) operation w) as [vars ->].
  set (new := fresh (dom (heap w))).
  assert (Hfresh : heap w !! new = None) by apply fresh_not_allocated.
  destruct w as [h f k]. unfold set_heap. simpl in *.
  rewrite bind_eq, update_vars_insert, bind_eq, update_vars_insert.
  set (w1 := World (<[new := _]> h) f k).
  assert (G1 : grows (World h f k) w1)
    by (apply (grows_insert_fresh (World h f k)); done).
  assert (F1 : ∀ l a, allocated (World h f k) l → attr w1 l a = attr (World h f k) l a).
  { intros l a Hl. by apply (attr_insert_fresh (World h f k)). }
  rewrite bind_eq.
  destruct (get_attr self "children" w1) as [[c|e] w2] eqn:Hc.
  2:{ apply pure_get_attr in Hc as ->. intros [= _ <-]. split; [done|]. intros; by apply F1. }
  apply get_attr_inv in Hc as [-> Hc].
  rewrite bind_eq.
  destruct c; try (intros [= _ <-]; split; [done|]; intros; by apply F1).
  rewrite set_attr_ret by (by eapply attr_allocated).
  intros [= _ <-]. split.
  - eapply grows_trans; [exact G1|].
    apply grows_append. unfold children_of. by rewrite Hc.
  - intros l0 a Hl Ha. rewrite attr_upd_ne by (by right). by apply F1.
Qed.

Lemma pm_call_grows E self operation kw w r w' :
  pm_call E self operation kw w = (r, w') → grows w w'.
Proof. intros H. by apply pm_call_frame in H as [? _]. Qed.

Lemma call_frame E self operation kw w r w' :
  call E self operation kw w = (r, w') →
  grows w w' ∧
  (∀ l a, allocated w l → a ≠ "children" → attr w' l a = attr w l a).
Proof.
  unfold call. rewrite bind_eq.
  destruct (get_class self w) as [[c|e] w0] eqn:Hc;
    apply pure_get_class in Hc as ->;
    [|intros [= _ <-]; split; [apply grows_refl|done]].
  destruct c; [apply pm_call_frame|].
  unfold dm_call. rewrite bind_eq.
  destruct (bind_call kw w) as [[[]|e] w0] eqn:Hb;
    apply bind_call_inv in Hb as [-> _];
    [|intros [= _ <-]; split; [apply grows_refl|done]].
  intros H.
  pose proof (construct_dm E operation w) as Hcon. unfold construct in Hcon.
  rewrite !bind_eq in H, Hcon.
  destruct (alloc DummyMonitor w) as [[new|?] w1]; [|done].
  rewrite !bind_eq in H, Hcon.
  destruct (dm_init new operation w1) as [[?|?] w2]; [|done].
  rewrite Hcon in H. injection H as _ <-. split.
  - apply grows_insert_fresh, fresh_not_allocated.
  - intros l0 a0 Hl _. apply attr_insert_fresh; [apply fresh_not_allocated|done].
Qed.

Lemma call_grows E self operation kw w r w' :
  call E self operation kw w = (r, w') → grows w w'.
Proof. intros H. by apply call_frame in H as [? _]. Qed.

Lemma run_op_grows self o w r w' : run_op self o w = (r, w') → grows w w'.
Proof.
  destruct o as [E|E exc|E|E operation kw|]; simpl; rewrite ?bind_eq.
  - destruct (enter E self w) as [[x|e] w1] eqn:H; intros [= _ <-];
      apply only_attrs_grows; revert H; unfold enter;
      (apply writes_bind; [apply writes_pure, pure_get_class|]);
      intros []; first [apply writes_pm_enter | apply writes_ret].
  - destruct (exit_ E self exc w) as [[x|e] w1] eqn:H; intros [= _ <-];
      apply only_attrs_grows; revert H; unfold exit_;
      (apply writes_bind; [apply writes_pure, pure_get_class|]);
      intros []; first [apply writes_pm_exit | apply writes_ret].
  - intros H. apply only_attrs_grows.
    eapply only_attrs_weaken; [|by eapply writes_flush].
    unfold measurement_attrs. attrs.
  - destruct (call E self operation kw w) as [[x|e] w1] eqn:H; intros [= _ <-];
      by eapply call_grows.
  - destruct (get_records self w) as [[x|e] w1] eqn:H; intros [= _ <-];
      apply pure_get_data in H as ->; apply grows_refl.
Qed.

(** X1.  Whatever calls a client makes, on whatever monitors and
    whatever their outcome, a monitor that exists stays where it is
    with its class, its [operation], [hdf5path], [autoflush] and
    [measuremem] are never reassigned, and its children list only ever
    grows at its end: no child is removed or reordered. *)
Theorem hierarchy_only_grows steps w r w' l :
  run_ops steps w = (r, w') →
  allocated w l →
  allocated w' l ∧
  class_of w' l = class_of w l ∧
  (∀ a, a ∈ config_attrs → attr w' l a = attr w l a) ∧
  (∀ ch, children_of w l = Some ch →
         ∃ more, children_of w' l = Some (ch ++ more)).
Proof.
  intros Hrun. revert l. change (grows w w').
  revert w Hrun. induction steps as [|[self o] rest IH]; intros w.
  - intros [= _ <-]. apply grows_refl.
  - simpl. rewrite bind_eq.
    destruct (run_op self o w) as [[[]|e] w1] eqn:Hop.
    + intros H. eapply grows_trans; [by eapply run_op_grows|by apply IH].
    + intros [= _ <-]. by eapply run_op_grows.
Qed.
End GrowsCall.

(** ** Duration accumulates *)

Section Accumulation.
Context {PF : PyFloat}.
Implicit Types (w : world) (l : loc) (v : val) (c : cycle).

(** Entering, calling and collecting leave every duration alone. *)
Lemma run_op_keeps_duration mon o w r w' l :
  assigns_duration o = false →
  run_op mon o w = (r, w') → allocated w l →
  attr w' l "duration" = attr w l "duration".
Proof.
  destruct o as [E|E exc|E|E operation kw|]; try done; intros _; simpl; rewrite bind_eq.
  - destruct (enter E mon w) as [[x|e] w1] eqn:H; intros [= _ <-] _.
    + revert H. unfold enter. rewrite bind_eq.
      destruct (get_class mon w) as [[k|e] w0] eqn:Hk;
        apply pure_get_class in Hk as ->; [|done].
      destruct k; [|by intros [= _ <-]].
      intros H. apply framed_pm_enter in H as (Ha & _). apply Ha. right. attrs.
    + revert H. unfold enter. rewrite bind_eq.
      destruct (get_class mon w) as [[k|e0] w0] eqn:Hk;
        apply pure_get_class in Hk as ->; [|by intros [= _ <-]].
      destruct k; [|done].
      intros H. apply framed_pm_enter in H as (Ha & _). apply Ha. right. attrs.
  - destruct (call E mon operation kw w) as [[x|e] w1] eqn:H; intros [= _ <-] Hl;
      apply call_frame in H as [_ Hf]; by apply Hf.
  - destruct (get_records mon w) as [[x|e] w1] eqn:H; intros [= _ <-] _;
      by apply pure_get_data in H as ->.
Qed.

(** C6, amended.  Entering and exiting a monitor N times (without a
    flush on exit) accumulates in [duration] exactly the sum, in order,
    of the N elapsed times, each the exit timestamp minus the enter
    timestamp of its cycle.  The timestamps are readings of the wall
    clock: a cycle over which the clock has not gone back does not
    decrease a finite duration, and nothing is said of the others.
    [__exit__] and [flush] are the only calls that assign [duration]:
    entering a monitor, spawning a child and collecting records leave
    the duration of every monitor as it is. *)
Theorem duration_accumulates w self cs w' af d0 n0 :
  class_of w self = Some PerformanceMonitor →
  attr w self "autoflush" = Some af → truthy af = false →
  attr w self "duration" = Some d0 → as_num d0 = Some n0 →
  run_cycles self cs w = (Ret (), w') →
  duration_after w self cs = Some (accumulate (to_float n0) cs) ∧
  (∀ cs1 c cs2, cs = cs1 ++ c :: cs2 →
     ∃ x y, duration_after w self cs1 = Some x ∧
            duration_after w self (cs1 ++ [c]) = Some y ∧
            y = fadd x (elapsed c) ∧
            (PyFloatOrder PF →
             ffinite x = true →
             ffinite (now (c_enter c)) = true → ffinite (now (c_exit c)) = true →
             fle (now (c_enter c)) (now (c_exit c)) = true →
             fle x y = true)) ∧
  (∀ mon o w0 r0 w1 l,
     assigns_duration o = false →
     run_op mon o w0 = (r0, w1) → allocated w0 l →
     attr w1 l "duration" = attr w0 l "duration").
Proof.
  intros Hc Haf Ht Hd Hn Hrun. split; [|split].
  - rewrite (duration_after_ret _ _ _ _ _ Hrun).
    destruct (run_cycles_post _ _ _ _ _ _ _ _ Hc Haf Ht Hd Hn Hrun)
      as (_ & _ & d' & n' & -> & Hn' & <-).
    simpl. by rewrite Hn'.
  - intros cs1 c cs2 ->.
    rewrite run_cycles_app in Hrun.
    apply bind_ret_inv in Hrun as ([] & w1 & Hrun1 & Hrun2).
    destruct (run_cycles_post _ _ _ _ _ _ _ _ Hc Haf Ht Hd Hn Hrun1)
      as (Hc1 & Haf1 & d1 & n1 & Hd1 & Hn1 & _).
    change (c :: cs2) with ([c] ++ cs2) in Hrun2.
    rewrite run_cycles_app in Hrun2.
    apply bind_ret_inv in Hrun2 as ([] & w2 & Hrun2 & _).
    assert (Hcyc : ∃ r, (enter (c_enter c) self;; exit_ (c_exit c) self (c_exc c)) w1
                        = (Ret r, w2)).
    { simpl in Hrun2. rewrite !bind_eq in Hrun2. rewrite bind_eq.
      destruct (enter (c_enter c) self w1) as [[?|?] w3]; [|done].
      rewrite !bind_eq in Hrun2.
      destruct (exit_ (c_exit c) self (c_exc c) w3) as [[rv|?] w4]; [|done].
      apply mret_inv in Hrun2 as [_ ->]. by exists rv. }
    destruct Hcyc as [rv Hcyc].
    destruct (cycle_post _ _ _ _ _ _ _ _ Hc1 Haf1 Ht Hd1 Hn1 Hcyc) as (_ & _ & Hd2).
    exists (to_float n1), (fadd (to_float n1) (elapsed c)). split; [|split; [|split]].
    + rewrite (duration_after_ret _ _ _ _ _ Hrun1), Hd1. simpl. by rewrite Hn1.
    + assert (Hrun12 : run_cycles self (cs1 ++ [c]) w = (Ret (), w2)).
      { by rewrite run_cycles_app, bind_eq, Hrun1. }
      by rewrite (duration_after_ret _ _ _ _ _ Hrun12), Hd2.
    + done.
    + intros Hord Hfx Hfin Hfout Hclock.
      apply fle_fadd; [done|]. unfold elapsed. by apply fle_fsub.
  - intros mon o w0 r0 w1 l. apply run_op_keeps_duration.
Qed.
End Accumulation.

(** ** Memory accumulates *)

Section Memory.
Context {PF : PyFloat}.
Implicit Types (w : world) (l : loc) (v : val) (c : cycle).






End Memory.

(** ** Monitors are independent *)

Section Independence.
Context {PF : PyFloat}.
Implicit Types (w : world) (l : loc) (a : string) (v : val) (c : cycle).

Lemma cycle_touches c self w r w' af :
  class_of w self = Some PerformanceMonitor →
  attr w self "autoflush" = Some af → truthy af = false →
  (enter (c_enter c) self;; exit_ (c_exit c) self (c_exc c)) w = (Ret r, w') →
  touches self measurement_attrs w w'.
Proof.
  intros Hc Haf Ht H.
  apply bind_ret_inv in H as (? & w1 & Hin & Hout).
  rewrite enter_pm in Hin by done.
  pose proof (framed_pm_enter _ _ _ _ _ Hin) as T1.
  destruct T1 as (Ha1 & Hc1 & Hrest1).
  rewrite exit_pm in Hout by (by rewrite Hc1).
  assert (Haf1 : attr w1 self "autoflush" = Some af).
  { rewrite Ha1 by (right; attrs). done. }
  apply (pm_exit_post _ _ _ _ _ _ _ Haf1 Ht) in Hout as [T2 _].
  eapply touches_trans; (eapply touches_weaken; [|first [exact (conj Ha1 (conj Hc1 Hrest1)) | exact T2]]);
    unfold measurement_attrs; attrs.
Qed.

Lemma run_cycles_touches self cs w r w' af :
  class_of w self = Some PerformanceMonitor →
  attr w self "autoflush" = Some af → truthy af = false →
  run_cycles self cs w = (Ret r, w') →
  touches self measurement_attrs w w'.
Proof.
  revert w. induction cs as [|c cs IH]; intros w Hc Haf Ht H.
  - apply mret_inv in H as [_ ->]. apply touches_refl.
  - simpl in H.
    assert (H' : (x ← (enter (c_enter c) self;; exit_ (c_exit c) self (c_exc c));
                  run_cycles self cs) w = (Ret r, w')).
    { rewrite <- H. rewrite !bind_eq.
      destruct (enter (c_enter c) self w) as [[?|?] ?]; [|done]. by rewrite bind_eq. }
    apply bind_ret_inv in H' as (? & w1 & Hcyc & Hrest).
    pose proof (cycle_touches _ _ _ _ _ _ Hc Haf Ht Hcyc) as T.
    eapply touches_trans; [exact T|].
    destruct T as (Ha & Hc1 & _).
    apply IH; [by rewrite Hc1| |done|done].
    rewrite Ha by (right; unfold measurement_attrs; attrs). done.
Qed.

(** X3.  Monitors are independent accumulators.  Cycles of a monitor
    that does not flush on exit assign only its own [pid], [exc],
    [_start_time], [start_mem], [stop_mem], [mem] and [duration]: no
    attribute of its parent, of its children or of any other monitor
    changes, and nothing is written to the store or the console. *)
Theorem monitors_are_independent self cs w w' af :
  class_of w self = Some PerformanceMonitor →
  attr w self "autoflush" = Some af → truthy af = false →
  run_cycles self cs w = (Ret (), w') →
  (∀ l a, l ≠ self → attr w' l a = attr w l a) ∧
  (∀ a, a ∉ measurement_attrs → attr w' self a = attr w self a) ∧
  files w' = files w ∧ console w' = console w.
Proof.
  intros Hc Haf Ht H.
  destruct (run_cycles_touches _ _ _ _ _ _ Hc Haf Ht H) as (Ha & _ & _ & Hf & Hk).
  repeat split; try done.
  - intros l a Hl. apply Ha. by left.
  - intros a Hn. apply Ha. by right.
Qed.
End Independence.

(** ** What a flush writes *)

Section FlushSuccess.
Context {PF : PyFloat}.
Implicit Types (w : world) (l : loc) (a : string) (v : val).

Lemma write_out_console E self data w hp :
  attr w self "hdf5path" = Some hp → truthy hp = false →
  ∃ w', write_out E self data w = (Ret (), w') ∧ heap w' = heap w ∧
        console w' = console w ++ data ∧ files w' = files w.
Proof.
  intros Hhp Ht. unfold write_out. destruct data as [|rec data].
  - exists w. by rewrite app_nil_r.
  - rewrite bind_eq, (get_attr_ret _ _ _ _ Hhp), Ht. by eexists.
Qed.

(** X11.  What a flush prints.  When [hdf5path] is [None] or empty and
    the records of the monitor and its direct children convert, flush
    returns after adding these records to the console, in order and
    after what is already there; the files are not touched and the
    accumulators have been reset. *)
Theorem flush_prints_records E w self ch es hp :
  class_of w self = Some PerformanceMonitor →
  children_of w self = Some ch →
  mapM (entry_of w) (self :: ch) = Some es →
  Forall (λ e, convertible e = true) es →
  attr w self "hdf5path" = Some hp → truthy hp = false →
  ∃ w', flush E self w = (Ret (), w') ∧
        heap w' = heap (reset_world (self :: ch) w) ∧
        console w' = console w ++ records_of es ∧
        files w' = files w.
Proof.
  intros Hc Hch Hes Hok Hhp Ht. rewrite flush_pm by done.
  pose proof (get_data_spec _ _ _ _ Hch Hes Hok) as Hdata.
  destruct (pm_flush_run E _ _ _ _ Hdata) as (ch' & Hch' & Hall & ->).
  assert (ch' = ch) as -> by congruence.
  set (w1 := reset_world (self :: ch) w).
  assert (Hhp1 : attr w1 self "hdf5path" = Some hp).
  { unfold w1. rewrite attr_reset_world_other; [done|by right]. }
  assert (Hf1 : files w1 = files w) by apply files_reset_world.
  assert (Hk1 : console w1 = console w) by apply console_reset_world.
  destruct (write_out_console E self (records_of es) w1 hp Hhp1 Ht)
    as (w' & -> & Hh & Hk & Hf).
  exists w'. split; [done|]. split; [done|]. by rewrite Hk, Hf, Hk1, Hf1.
Qed.




End FlushSuccess.

(** ** When psutil fails *)

Section Sampling.
Context {PF : PyFloat}.
Implicit Types (w : world) (l : loc) (v : val).

(** X5.  Once psutil has denied access, sampling stays off.  The denied
    sample yields [None] and sets [pid] to 0, nothing else; and every
    later sample yields [None] and changes nothing, whatever psutil
    would answer then. *)
Theorem denied_sampling_stays_off E E' self w p :
  attr w self "pid" = Some (VInt p) → p ≠ 0 → rss E p = Denied →
  measure_mem E self w = (Ret VNone, upd self "pid" (VInt 0) w) ∧
  measure_mem E' self (upd self "pid" (VInt 0) w)
  = (Ret VNone, upd self "pid" (VInt 0) w).
Proof.
  intros Hpid Hp Hrss.
  assert (Hal : allocated w self) by (by eapply attr_allocated).
  split.
  - unfold measure_mem. rewrite bind_eq, (get_attr_ret _ _ _ _ Hpid). simpl.
    destruct (Z.eqb_spec p 0) as [|_]; [done|]. simpl. rewrite Hrss.
    by rewrite bind_eq, set_attr_ret.
  - unfold measure_mem.
    by rewrite bind_eq, (get_attr_ret _ _ _ (VInt 0)) by (by apply attr_upd_eq).
Qed.

(** X6.  Only [AccessDenied] is caught.  When the sampled process has
    gone, [NoSuchProcess] leaves [measure_mem] and [__enter__]: the
    [with] statement raises it without running the block and without
    calling [__exit__], so that neither the block nor the readings at
    exit matter, and [duration] and [mem] are what they were. *)
Theorem vanished_process_aborts_entry E_in E_out E_out' self (body body' : M unit) w
    pid p mm :
  class_of w self = Some PerformanceMonitor →
  attr w self "pid" = Some pid →
  match pid with VNone => VInt (getpid E_in) | _ => pid end = VInt p → p ≠ 0 →
  attr w self "measuremem" = Some mm → truthy mm = true →
  rss E_in p = Vanished →
  fst (with_ E_in E_out self body w) = Raise NoSuchProcess ∧
  with_ E_in E_out self body w = with_ E_in E_out' self body' w ∧
  attr (snd (with_ E_in E_out self body w)) self "duration" = attr w self "duration" ∧
  attr (snd (with_ E_in E_out self body w)) self "mem" = attr w self "mem".
Proof.
  intros Hc Hpid Heff Hp Hmm Ht Hrss.
  assert (Hin : fst (pm_enter E_in self w) = Raise NoSuchProcess).
  { unfold pm_enter.
    assert (Hal : allocated w self) by (by eapply attr_allocated).
    rewrite bind_eq, (get_attr_ret _ _ _ _ Hpid).
    assert (∃ w0, (match pid with
                   | VNone => set_attr self "pid" (VInt (getpid E_in))
                   | _ => mret ()
                   end) w = (Ret (), w0) ∧ allocated w0 self ∧
                  attr w0 self "measuremem" = Some mm ∧
                  attr w0 self "pid" = Some (VInt p)) as (w0 & Hw0 & Hal0 & Hmm0 & Hpid0).
    { destruct pid; try (exists w; by rewrite Hpid, Heff).
      exists (upd self "pid" (VInt (getpid E_in)) w). rewrite set_attr_ret by done.
      split; [done|]. split; [by apply allocated_upd|].
      split; [by rewrite attr_upd_ne by (by right)|].
      rewrite attr_upd_eq by done. by rewrite Heff. }
    rewrite bind_eq, Hw0.
    rewrite bind_eq, set_attr_ret by done.
    rewrite bind_eq, set_attr_ret by (by apply allocated_upd).
    rewrite bind_eq, (get_attr_ret _ _ _ mm)
      by (by rewrite !attr_upd_ne by (by right)).
    rewrite Ht, !bind_eq. unfold measure_mem.
    rewrite bind_eq, (get_attr_ret _ _ _ (VInt p))
      by (by rewrite !attr_upd_ne by (by right)).
    simpl. destruct (Z.eqb_spec p 0) as [|_]; [done|]. simpl. by rewrite Hrss. }
  unfold with_. rewrite !enter_pm by done.
  destruct (pm_enter E_in self w) as [r w1] eqn:Hrun. simpl in Hin. subst r.
  split; [done|]. split; [done|]. simpl.
  destruct (framed_pm_enter _ _ _ _ _ Hrun) as (Ha & _).
  split; apply Ha; right; attrs.
Qed.
End Sampling.

(** ** Monitors that measure time only *)

Section PlainMonitor.
Context {PF : PyFloat}.
Implicit Types (w : world) (l : loc) (a : string) (v : val) (c : cycle).





(** X19.  A [DummyMonitor] is transparent: a [with] statement on it is
    its block, with the same outcome and the same final world. *)
Theorem with_dummy_is_the_block E_in E_out self (body : M unit) w :
  class_of w self = Some DummyMonitor →
  class_of (snd (body w)) self = Some DummyMonitor →
  with_ E_in E_out self body w = body w.
Proof.
  intros Hc Hc2. unfold with_, enter, exit_.
  rewrite bind_eq, (get_class_ret _ _ _ Hc). simpl.
  destruct (body w) as [[[]|e] w2]; simpl in Hc2;
    by rewrite bind_eq, (get_class_ret _ _ _ Hc2).
Qed.
End PlainMonitor.

(** ** New monitors and children *)

Section Fresh.
Context {PF : PyFloat}.
Implicit Types (w : world) (l : loc) (a : string) (v : val).

Lemma pm_new_run E operation hdf5path pid autoflush measuremem w :
  pm_new E operation hdf5path pid autoflush measuremem w
  = (Ret (fresh (dom (heap w))),
     set_heap (<[fresh (dom (heap w)) :=
       Obj PerformanceMonitor
         (<["children" := VList []]> (<["_start_time" := VFloat (now E)]> (
          <["duration" := VInt 0]> (<["mem" := VInt 0]> (
          <["measuremem" := measuremem]> (<["autoflush" := autoflush]> (
          <["pid" := pid]> (<["hdf5path" := hdf5path]> (
          <["operation" := operation]> ∅)))))))))]>) w).
Proof.
  destruct w as [h f k]. unfold pm_new, alloc, pm_init, set_heap. simpl.
  rewrite bind_eq. simpl. rewrite bind_eq.
  repeat (rewrite bind_eq, set_attr_insert).
  rewrite set_attr_insert. reflexivity.
Qed.

(** X13.  A monitor just made, with whatever arguments, is a new object
    with no children and both accumulators at zero; it has no record
    to give, and flushing it writes nothing and changes nothing. *)
Theorem new_monitor_is_quiet E E' operation hdf5path pid autoflush measuremem w :
  ∃ new w1,
    pm_new E operation hdf5path pid autoflush measuremem w = (Ret new, w1) ∧
    ¬ allocated w new ∧
    (∀ l, l ≠ new → heap w1 !! l = heap w !! l) ∧
    files w1 = files w ∧ console w1 = console w ∧
    class_of w1 new = Some PerformanceMonitor ∧
    children_of w1 new = Some [] ∧
    attr w1 new "duration" = Some (VInt 0) ∧
    attr w1 new "mem" = Some (VInt 0) ∧
    get_records new w1 = (Ret [], w1) ∧
    flush E' new w1 = (Ret (), w1).
Proof.
  eexists _, _. split; [apply pm_new_run|].
  set (new := fresh (dom (heap w))).
  set (w1 := set_heap _ w).
  assert (Hd : attr w1 new "duration" = Some (VInt 0)).
  { unfold attr, w1, set_heap. simpl. rewrite lookup_insert_eq. simpl. by simplify_map_eq. }
  assert (Hm : attr w1 new "mem" = Some (VInt 0)).
  { unfold attr, w1, set_heap. simpl. rewrite lookup_insert_eq. simpl. by simplify_map_eq. }
  assert (Hch : children_of w1 new = Some []).
  { unfold children_of, attr, w1, set_heap. simpl. rewrite lookup_insert_eq. simpl.
    by simplify_map_eq. }
  assert (Hc : class_of w1 new = Some PerformanceMonitor).
  { unfold class_of, w1, set_heap. simpl. by rewrite lookup_insert_eq. }
  assert (Hdata : get_data new w1 = (Ret [], w1)).
  { unfold get_data. rewrite bind_eq, (get_children_ret _ _ _ Hch).
    rewrite bind_eq, (collect_zero [new]) by (by constructor). done. }
  split; [intros [? Hx]; unfold new in Hx; by rewrite fresh_not_allocated in Hx|].
  split; [intros l Hl; unfold w1, set_heap; simpl; by rewrite lookup_insert_ne|].
  do 7 (split; [done|]).
  rewrite flush_pm by done.
  destruct (pm_flush_run E' _ _ _ _ Hdata) as (ch & Hch' & _ & ->).
  assert (ch = []) as -> by congruence.
  rewrite write_out_nil. f_equal. apply reset_world_id. by constructor.
Qed.
End Fresh.

Section SpawnOrder.
Context {PF : PyFloat}.
Implicit Types (w : world) (l : loc) (a : string) (v : val).

Lemma spawn_all_grows parent requests w r w' :
  spawn_all parent requests w = (r, w') → grows w w'.
Proof.
  revert w r w'. induction requests as [|[[E operation] kw] rest IH]; intros w r w'.
  - intros [= _ <-]. apply grows_refl.
  - simpl. rewrite bind_eq.
    destruct (call E parent operation kw w) as [[new|e] w1] eqn:Hcall.
    + rewrite bind_eq. destruct (spawn_all parent rest w1) as [[news|e] w2] eqn:Hrest;
        intros [= _ <-]; (eapply grows_trans; [by eapply call_grows|by eapply IH]).
    + intros [= _ <-]. by eapply call_grows.
Qed.

Lemma child_vars_operation E pvars operation kw :
  kw !! "operation" = None →
  child_vars E pvars operation kw !! "operation" = Some operation.
Proof.
  intros Hkw. unfold child_vars.
  rewrite lookup_union_r by done. rewrite lookup_union_r.
  - unfold init_vars. by simplify_map_eq.
  - rewrite !lookup_delete_ne by done. apply lookup_delete_eq.
Qed.

(** X14.  Children are kept in the order they were asked for.  Any
    number of calls of a monitor, with options that are not named
    [self], [operation] or [children], return as many new monitors of
    its class, all different and none of them an object that existed
    before, and leave them at the end of its children list in the
    order of the calls; each child carries the operation name it was
    asked with. *)
Theorem children_keep_call_order requests w parent pvars ch :
  heap w !! parent = Some (Obj PerformanceMonitor pvars) →
  is_Some (pvars !! "operation") →
  pvars !! "children" = Some (VList ch) →
  is_Some (pvars !! "pid") →
  Forall (λ rq, rq.2 !! "self" = None ∧ rq.2 !! "operation" = None ∧
                rq.2 !! "children" = None) requests →
  ∃ news w',
    spawn_all parent requests w = (Ret news, w') ∧
    children_of w' parent = Some (ch ++ news) ∧
    NoDup news ∧
    Forall (λ new, ¬ allocated w new ∧
                   class_of w' new = Some PerformanceMonitor) news ∧
    Forall2 (λ new rq, attr w' new "operation" = Some rq.1.2) news requests.
Proof.
  intros Hp Hop Hch Hpid Hkw. revert w pvars ch Hp Hop Hch Hpid.
  induction Hkw as [|[[E operation] kw] rest (Hks & Hko & Hkc) _ IH];
    intros w pvars ch Hp Hop Hch Hpid.
  - exists [], w. split; [done|]. rewrite app_nil_r.
    split; [unfold children_of, attr; rewrite Hp; simpl; by rewrite Hch|].
    split; [constructor|]. split; constructor.
  - simpl in Hks, Hko, Hkc. simpl.
    assert (Hc : class_of w parent = Some PerformanceMonitor).
    { unfold class_of. by rewrite Hp. }
    unfold call. rewrite bind_eq, bind_eq, (get_class_ret _ _ _ Hc).
    rewrite (pm_call_run E w parent operation kw pvars ch Hp Hop Hch Hpid Hks Hko).
    set (new := fresh (dom (heap w))).
    set (w1 := upd parent "children" (VList (ch ++ [new])) _).
    assert (Hfresh : heap w !! new = None) by apply fresh_not_allocated.
    assert (Hne : new ≠ parent) by (intros Heq; rewrite Heq in Hfresh; congruence).
    assert (Hp1 : heap w1 !! parent
                  = Some (Obj PerformanceMonitor
                            (<["children" := VList (ch ++ [new])]> pvars))).
    { unfold w1, upd, set_heap. simpl.
      rewrite lookup_alter_eq, lookup_insert_ne by done. by rewrite Hp. }
    assert (Hnew1 : heap w1 !! new
                    = Some (Obj PerformanceMonitor (child_vars E pvars operation kw))).
    { unfold w1, upd, set_heap. simpl.
      rewrite lookup_alter_ne by done. by rewrite lookup_insert_eq. }
    destruct (IH w1 _ (ch ++ [new]) Hp1) as (news & w' & Hrun & Hch' & Hnd & Hall & Hops).
    { by rewrite lookup_insert_ne. }
    { by rewrite lookup_insert_eq. }
    { by rewrite lookup_insert_ne. }
    rewrite bind_eq, Hrun.
    exists (new :: news), w'. split; [done|].
    split; [by rewrite Hch', <- app_assoc|].
    assert (Hal1 : ∀ l, allocated w l → allocated w1 l).
    { intros l [o Ho]. unfold allocated, w1, upd, set_heap. simpl.
      destruct (decide (l = parent)) as [->|Hl].
      - rewrite lookup_alter_eq, lookup_insert_ne by done. rewrite Hp. by eexists.
      - rewrite lookup_alter_ne by done.
        rewrite lookup_insert_ne by (intros <-; congruence). by eexists. }
    pose proof (spawn_all_grows _ _ _ _ _ Hrun) as Hg.
    destruct (Hg new) as (_ & Hcn & Hcfg & _); [unfold allocated; by rewrite Hnew1|].
    split; [|split].
    + constructor; [|done]. intros Hin.
      rewrite Forall_forall in Hall. destruct (Hall _ Hin) as [Hna _].
      apply Hna. unfold allocated. by rewrite Hnew1.
    + constructor.
      * split; [unfold allocated; rewrite Hfresh; by intros [? ?]|].
        rewrite Hcn. unfold class_of. by rewrite Hnew1.
      * eapply Forall_impl; [exact Hall|]. intros l [Hna Hcl]. split; [|done].
        intros Hl. by apply Hna, Hal1.
    + constructor; [|done]. simpl.
      rewrite Hcfg by (unfold config_attrs; attrs).
      unfold attr. rewrite Hnew1. simpl. by apply child_vars_operation.
Qed.
End SpawnOrder.

(** ** Collecting is local *)

Section Locality.
Context {PF : PyFloat}.
Implicit Types (w : world) (l : loc) (a : string) (v : val).

Lemma fst_bind_pure {A B} (m : M A) (f : A → M B) w :
  pure m →
  fst ((x ← m; f x) w)
  = match fst (m w) with Ret x => fst (f x w) | Raise e => Raise e end.
Proof.
  intros Hm. rewrite bind_eq.
  destruct (m w) as [[x|e] w1] eqn:E; apply Hm in E as ->; done.
Qed.

Lemma get_attr_fst l a w :
  fst (get_attr l a w)
  = match class_of w l with
    | None => Raise DanglingRef
    | Some _ => match attr w l a with
                | Some v => Ret v
                | None => Raise (AttributeError a)
                end
    end.
Proof.
  unfold get_attr, get_obj, class_of, attr. rewrite bind_eq.
  destruct (heap w !! l) as [o|]; simpl; [|done].
  by destruct (o_vars o !! a).
Qed.

Lemma get_attr_fst_same l a w1 w2 :
  class_of w2 l = class_of w1 l → attr w2 l a = attr w1 l a →
  fst (get_attr l a w2) = fst (get_attr l a w1).
Proof. intros Hc Ha. by rewrite !get_attr_fst, Hc, Ha. Qed.

Lemma pure_memory_mb mon (mm : val) :
  pure (if truthy mm then
          m ← get_attr mon "mem";
          k ← lift (py_div_const m (of_int 1024));
          lift (py_div_const k (of_int 1024))
        else mret (VInt 0)).
Proof.
  destruct (truthy mm); [|apply pure_ret].
  apply pure_bind; [apply pure_get_attr|]. intros m.
  apply pure_bind; [apply pure_lift|]. intros k. apply pure_lift.
Qed.

Lemma collect_same monitors w1 w2 :
  same_readings monitors w1 w2 →
  fst (collect monitors w2) = fst (collect monitors w1).
Proof.
  induction 1 as [|mon monitors [Hc Ha] _ IH]; [done|].
  unfold collected_attrs in Ha. rewrite !Forall_cons in Ha.
  destruct Ha as (Hd & Hmm & Hm & Hop & _).
  simpl. rewrite !fst_bind_pure by apply pure_get_attr.
  rewrite (get_attr_fst_same _ _ _ _ Hc Hd).
  destruct (fst (get_attr mon "duration" w1)) as [d|e]; [|done].
  destruct (truthy d); [|done].
  rewrite !fst_bind_pure by apply pure_get_attr.
  rewrite (get_attr_fst_same _ _ _ _ Hc Hmm).
  destruct (fst (get_attr mon "measuremem" w1)) as [mm|e]; [|done].
  rewrite !fst_bind_pure by apply pure_memory_mb.
  assert (Hblk : ∀ w, fst ((if truthy mm then
                              m ← get_attr mon "mem";
                              k ← lift (py_div_const m (of_int 1024));
                              lift (py_div_const k (of_int 1024))
                            else mret (VInt 0)) w)
                      = if truthy mm then
                          match fst (get_attr mon "mem" w) with
                          | Ret m =>
                              match py_div_const m (of_int 1024) with
                              | Ret k => py_div_const k (of_int 1024)
                              | Raise e => Raise e
                              end
                          | Raise e => Raise e
                          end
                        else Ret (VInt 0)).
  { intros w. destruct (truthy mm); [|done].
    rewrite fst_bind_pure by apply pure_get_attr.
    destruct (fst (get_attr mon "mem" w)) as [m|e]; [|done].
    rewrite fst_bind_pure by apply pure_lift. unfold lift. simpl.
    by destruct (py_div_const m (of_int 1024)). }
  rewrite !Hblk, (get_attr_fst_same _ _ _ _ Hc Hm).
  match goal with |- match ?x with _ => _ end = _ => destruct x as [mb|e] end; [|done].
  rewrite !fst_bind_pure by apply pure_get_attr.
  rewrite (get_attr_fst_same _ _ _ _ Hc Hop).
  destruct (fst (get_attr mon "operation" w1)) as [op|e]; [|done].
  rewrite !fst_bind_pure by apply pure_collect.
  by rewrite IH.
Qed.

(** X15.  Collecting is not recursive.  The result of [get_data], records
    or error, depends on what it reads of the monitor and of its
    direct children and on nothing else: in any other world in which
    these monitors have the same [children] (of the monitor itself),
    [duration], [measuremem], [mem] and [operation], however
    grandchildren and other monitors differ, the result is the same. *)
Theorem get_data_reads_direct_children_only w1 w2 self ch :
  children_of w1 self = Some ch →
  attr w2 self "children" = attr w1 self "children" →
  same_readings (self :: ch) w1 w2 →
  fst (get_records self w2) = fst (get_records self w1).
Proof.
  intros Hch Hsame Hrd. unfold get_records, get_data.
  assert (Hch2 : children_of w2 self = Some ch).
  { by rewrite (children_of_same_attr w1 w2). }
  rewrite !bind_eq, (get_children_ret _ _ _ Hch), (get_children_ret _ _ _ Hch2).
  rewrite !fst_bind_pure by apply pure_collect.
  by rewrite (collect_same _ _ _ Hrd).
Qed.

Lemma length_substring_le (n m : nat) (s : string) :
  (String.length (substring n m s) ≤ m)%nat.
Proof.
  revert n m. induction s as [|ch s IH]; intros n m.
  - destruct n, m; simpl; lia.
  - destruct n as [|n]; simpl.
    + destruct m as [|m]; simpl; [lia|]. specialize (IH 0%nat m). lia.
    + apply IH.
Qed.

Lemma np_array_shape data rs :
  np_array data = Ret rs →
  length rs = length data ∧
  Forall (λ r, r_counts r = 1 ∧ (String.length (r_operation r) ≤ 50)%nat) rs.
Proof.
  revert rs. induction data as [|[[op t] m] data IH]; intros rs.
  - intros [= <-]. by split.
  - rewrite np_array_cons. unfold np_record, np_bytes50.
    destruct op as [| | | |s| |]; try done.
    destruct (is_ascii s); [|done].
    destruct (np_float t) as [t'|]; [|done].
    destruct (np_float m) as [m'|]; [|done].
    destruct (np_array data) as [rs'|]; [|done].
    intros [= <-]. destruct (IH rs' eq_refl) as [Hlen Hall].
    split; [simpl; by rewrite Hlen|].
    constructor; [|done]. simpl. split; [done|apply length_substring_le].
Qed.

Lemma collect_length monitors w data w' :
  collect monitors w = (Ret data, w') → (length data ≤ length monitors)%nat.
Proof.
  revert data w'. induction monitors as [|mon rest IH]; simpl; intros data w' H.
  - apply mret_inv in H as [-> _]. done.
  - apply bind_ret_inv in H as (d & w1 & Hd & H).
    apply pure_get_attr in Hd as ->.
    destruct (truthy d); [|apply IH in H; lia].
    apply bind_ret_inv in H as (mm & w1 & Hmm & H).
    apply pure_get_attr in Hmm as ->.
    apply bind_ret_inv in H as (mb & w1 & Hmb & H).
    apply pure_memory_mb in Hmb as ->.
    apply bind_ret_inv in H as (op & w1 & Hop & H).
    apply pure_get_attr in Hop as ->.
    apply bind_ret_inv in H as (tl & w1 & Htl & H).
    apply mret_inv in H as [-> _]. apply IH in Htl. simpl. lia.
Qed.

(** X16.  Whatever the monitors hold, collecting never writes: the world
    after [get_data] is the world before it, also when it raises.  And
    when it returns, there is at most one record for the monitor and
    one for each direct child, every record has count 1 and a name of
    at most 50 bytes. *)
Theorem get_data_shape self w :
  snd (get_records self w) = w ∧
  ∀ rs, fst (get_records self w) = Ret rs →
    ∃ ch, children_of w self = Some ch ∧
          (length rs ≤ S (length ch))%nat ∧
          Forall (λ r, r_counts r = 1 ∧ (String.length (r_operation r) ≤ 50)%nat) rs.
Proof.
  destruct (get_records self w) as [r w'] eqn:H. simpl.
  split; [by apply pure_get_data in H|].
  intros rs ->.
  unfold get_records, get_data in H.
  apply bind_ret_inv in H as (ch & w1 & Hch & H).
  apply get_children_inv in Hch as [-> Hch]. exists ch. split; [done|].
  apply bind_ret_inv in H as (data & w1 & Hd & H).
  apply collect_length in Hd. apply lift_inv in H as [H _].
  apply np_array_shape in H as [Hlen Hall]. split; [|done].
  rewrite Hlen. simpl in Hd. lia.
Qed.
End Locality.

(** ** What a parent reports *)

Section Reporting.
Context {PF : PyFloat}.
Implicit Types (w : world) (l : loc) (a : string) (v : val) (c : cycle).





End Reporting.


(** ** The psutil interface chosen at import *)

Lemma compare_first c d s t :
  c ≠ d → String.compare (String c s) (String d t) = Ascii.compare c d.
Proof.
  intros Hne. simpl. destruct (Ascii.compare c d) eqn:Hcmp; try done.
  by apply Ascii.compare_eq_iff in Hcmp.
Qed.

Ltac run_compare :=
  match goal with
  | |- context [Ascii.compare ?a ?b] =>
      let r := eval vm_compute in (Ascii.compare a b) in
      change (Ascii.compare a b) with r
  end.

Lemma append_cons c s t : String c s +:+ t = String c (s +:+ t).
Proof. reflexivity. Qed.

(** X20.  The psutil interface is chosen by the text of the version, not
    by its number.  Every version whose text starts with [1], 1.2.1 as
    well as 10.0.0 or 19.3, and the version 2.0.0 itself, get
    [get_memory_info]; every version whose text starts with a digit
    from 3 to 9 gets [memory_info]; and no version gets
    [phymem_usage] together with [memory_info]. *)
Theorem psutil_interface_by_text :
  (∀ rest, memory_info ("1" +:+ rest) = "get_memory_info") ∧
  memory_info "2.0.0" = "get_memory_info" ∧
  (∀ d rest, d ∈ ["3"; "4"; "5"; "6"; "7"; "8"; "9"] →
             memory_info (d +:+ rest) = "memory_info" ∧
             virtual_memory (d +:+ rest) = "virtual_memory") ∧
  (∀ version, virtual_memory version = "phymem_usage" →
              memory_info version = "get_memory_info").
Proof.
  split; [|split; [done|split]].
  - intros rest. unfold memory_info, str_gt, str_ge. rewrite append_cons.
    rewrite compare_first by done. run_compare.
    by destruct (String.compare _ _).
  - intros d rest Hd. unfold memory_info, virtual_memory, str_gt.
    rewrite !elem_of_cons, elem_of_nil in Hd.
    destruct Hd as [->|[->|[->|[->|[->|[->|[->|[]]]]]]]]; rewrite append_cons;
      rewrite compare_first by done; by run_compare.
  - intros version. unfold memory_info, virtual_memory.
    destruct (str_gt version "2.0.0"); [done|]. by destruct (str_ge version "1.2.1").
Qed.

(** * The model on concrete runs *)

Import Run.
Import Cases.

(** The outcome of a run, split into its result and its final world. *)
Lemma run_eta {PF : PyFloat} {A} (m : M A) (w : world) (r : res A) :
  fst (m w) = r → m w = (r, snd (m w)).
Proof. destruct (m w). simpl. by intros ->. Qed.

(** The attribute dictionary of an allocated object. *)
Lemma heap_lookup_vars {PF : PyFloat} (w : world) (l : loc) (c : cls) :
  class_of w l = Some c →
  heap w !! l = Some (Obj c (default ∅ (o_vars <$> heap w !! l))).
Proof.
  unfold class_of. destruct (heap w !! l) as [[c' vars]|]; simpl; [|done].
  by intros [= ->].
Qed.

(** ** Facts about the runs *)

Lemma measured_class : class_of measured 1%positive = Some PerformanceMonitor.
Proof. vm_compute. reflexivity. Qed.

Lemma measured_children : children_of measured 1%positive = Some [2%positive].
Proof. vm_compute. reflexivity. Qed.

Lemma measured_entries :
  mapM (entry_of measured) [1%positive; 2%positive]
  = Some [Entry (PF := Q_float) "parent" (NFloat (PF := Q_float) 3%Q) (NInt 3145728) true;
          Entry (PF := Q_float) "child" (NFloat (PF := Q_float) 7%Q) (NInt 7340032) true].
Proof. vm_compute. reflexivity. Qed.

Lemma measured_duration :
  attr measured 1%positive "duration" = Some (VFloat (PF := Q_float) 3%Q).
Proof. vm_compute. reflexivity. Qed.

Lemma measured_flush :
  flush (at_time 40) 1%positive measured
  = (Ret (), snd (flush (at_time 40) 1%positive measured)).
Proof. apply run_eta. vm_compute. reflexivity. Qed.

Lemma sampling_class : class_of sampling 1%positive = Some PerformanceMonitor.
Proof. vm_compute. reflexivity. Qed.

Lemma sampling_autoflush : attr sampling 1%positive "autoflush" = Some (VBool false).
Proof. vm_compute. reflexivity. Qed.

Lemma sampling_duration : attr sampling 1%positive "duration" = Some (VInt 0).
Proof. vm_compute. reflexivity. Qed.

Lemma sampling_cycles :
  run_cycles 1%positive (from [(10, 13); (20, 25)]) sampling
  = (Ret (), snd (run_cycles 1%positive (from [(10, 13); (20, 25)]) sampling)).
Proof. apply run_eta. vm_compute. reflexivity. Qed.


Lemma stored_class : class_of stored 1%positive = Some PerformanceMonitor.
Proof. vm_compute. reflexivity. Qed.

Lemma stored_children : children_of stored 1%positive = Some [].
Proof. vm_compute. reflexivity. Qed.

Lemma late_child_loc :
  fst (call (at_time 40) 1%positive (VStr "late") ∅ measured) = Ret 3%positive.
Proof. vm_compute. reflexivity. Qed.

Lemma late_child_duration :
  attr (snd (call (at_time 40) 1%positive (VStr "late") ∅ measured)) 3%positive "duration"
  = Some (VFloat (PF := Q_float) 3%Q).
Proof. vm_compute. reflexivity. Qed.

Lemma measured_mem : attr measured 1%positive "mem" = Some (VInt 3145728).
Proof. vm_compute. reflexivity. Qed.

Lemma late_child_mem :
  attr (snd (call (at_time 40) 1%positive (VStr "late") ∅ measured)) 3%positive "mem"
  = Some (VInt 3145728).
Proof. vm_compute. reflexivity. Qed.

Lemma late_child_pid :
  attr (snd (call (at_time 40) 1%positive (VStr "late") ∅ measured)) 3%positive "pid"
  = Some VNone.
Proof. vm_compute. reflexivity. Qed.

Lemma late_child_children :
  attr (snd (call (at_time 40) 1%positive (VStr "late") ∅ measured)) 3%positive "children"
  = Some (VList []).
Proof. vm_compute. reflexivity. Qed.

Lemma late_child_records :
  fst (late_child measured)
  = Ret [Rec (PF := Q_float) "parent" 3%Q 3%Q 1; Rec (PF := Q_float) "child" 7%Q 7%Q 1;
         Rec (PF := Q_float) "late" 4%Q 4%Q 1].
Proof. vm_compute. reflexivity. Qed.

Lemma stored_duration : attr stored 1%positive "duration" = Some (VFloat (PF := Q_float) 4%Q).
Proof. vm_compute. reflexivity. Qed.

Lemma set_back_returns : fst (run_cycles 1%positive (from [(20, 16)]) stored) = Ret ().
Proof. vm_compute. reflexivity. Qed.

Lemma set_back_duration :
  duration_after stored 1%positive (from [(20, 16)]) = Some (inject_Z 0).
Proof. vm_compute. reflexivity. Qed.

Lemma set_back_sink :
  console (snd (run_cycles 1%positive (from [(20, 16)]) stored)) = console stored ∧
  files (snd (run_cycles 1%positive (from [(20, 16)]) stored)) = files stored.
Proof. split; vm_compute; reflexivity. Qed.

(** ** The claims on the runs *)

(** C1, where the code departs from it.  The parent has accumulated
    three seconds and three megabytes when it spawns the child [late].
    The new monitor, object 3, has no children and no [pid], but its
    [duration] and [mem] are the parent's, which [__call__] copies over
    the zeros that [__init__] has just set.  After the child has
    measured one second and one megabyte of its own, the parent reports
    four seconds and four megabytes for it: the parent's totals are
    counted again. *)
Theorem child_starts_with_parent_totals :
  fst (call (at_time 40) 1%positive (VStr "late") ∅ measured) = Ret 3%positive ∧
  attr measured 1%positive "duration" = Some (VFloat (PF := Q_float) 3%Q) ∧
  attr measured 1%positive "mem" = Some (VInt 3145728) ∧
  attr (snd (call (at_time 40) 1%positive (VStr "late") ∅ measured)) 3%positive "duration"
  = Some (VFloat (PF := Q_float) 3%Q) ∧
  attr (snd (call (at_time 40) 1%positive (VStr "late") ∅ measured)) 3%positive "mem"
  = Some (VInt 3145728) ∧
  attr (snd (call (at_time 40) 1%positive (VStr "late") ∅ measured)) 3%positive "pid"
  = Some VNone ∧
  attr (snd (call (at_time 40) 1%positive (VStr "late") ∅ measured)) 3%positive "children"
  = Some (VList []) ∧
  fst (late_child measured)
  = Ret [Rec (PF := Q_float) "parent" 3%Q 3%Q 1; Rec (PF := Q_float) "child" 7%Q 7%Q 1;
         Rec (PF := Q_float) "late" 4%Q 4%Q 1] ∧
  ¬ spawns_fresh_child (at_time 40) measured 1%positive (VStr "late") ∅.
Proof.
  split; [exact late_child_loc|]. split; [exact measured_duration|].
  split; [exact measured_mem|]. split; [exact late_child_duration|].
  split; [exact late_child_mem|]. split; [exact late_child_pid|].
  split; [exact late_child_children|]. split; [exact late_child_records|].
  intros (new & w' & Hcall & _ & _ & _ & _ & Hzero & _).
  assert (Hw : w' = snd (call (at_time 40) 1%positive (VStr "late") ∅ measured))
    by (rewrite Hcall; reflexivity).
  assert (Hn : fst (call (at_time 40) 1%positive (VStr "late") ∅ measured) = Ret new)
    by (rewrite Hcall; reflexivity).
  rewrite late_child_loc in Hn. injection Hn as <-. subst w'.
  specialize (Hzero (lookup_empty _)). rewrite late_child_duration in Hzero.
  vm_compute in Hzero. discriminate.
Qed.

(** C2, where the code departs from it.  A monitor that measures memory
    is entered at 10 and left at 13 while psutil denies access.  The
    sampling is switched off ([pid] becomes 0), but the missing samples
    are subtracted all the same: [__exit__] raises [TypeError] out of a
    block that raised nothing, and the three seconds are not added to
    [duration]. *)
Theorem access_denied_breaks_exit :
  let out := with_ (denied_at 10) (denied_at 13) 1%positive (mret ()) sampling in
  out.1 = Raise TypeError ∧
  attr out.2 1%positive "pid" = Some (VInt 0) ∧
  attr out.2 1%positive "start_mem" = Some VNone ∧
  attr out.2 1%positive "stop_mem" = Some VNone ∧
  attr out.2 1%positive "mem" = Some (VInt 0) ∧
  attr out.2 1%positive "duration" = Some (VInt 0).
Proof. vm_compute. repeat split; reflexivity. Qed.

(** C3, where the code departs from it.  The block of a monitor that
    measures memory raises [UserError 7]; the sample at entry succeeds
    and the sample at exit is denied.  The error is stored in [exc], but
    [__exit__] then raises [TypeError]: this, not the error of the
    block, reaches the caller, and the three seconds are not added to
    [duration]. *)
Theorem failing_sample_masks_error :
  let out := with_ (at_time 10) (denied_at 13) 1%positive (raise (UserError 7)) sampling in
  out.1 = Raise TypeError ∧
  attr out.2 1%positive "exc" = Some (VExc (UserError 7)) ∧
  attr out.2 1%positive "start_mem" = Some (VInt 10485760) ∧
  attr out.2 1%positive "stop_mem" = Some VNone ∧
  attr out.2 1%positive "duration" = Some (VInt 0).
Proof. vm_compute. repeat split; reflexivity. Qed.

(** C5, where the code departs from it.  The monitor named [é] has
    measured one second, so that a record is due for it, and its child
    two seconds.  numpy cannot encode the name as ASCII bytes:
    [get_data] raises [UnicodeEncodeError] and returns no record, also
    none for the child, whose own collection works. *)
Theorem non_ascii_name_breaks_get_data :
  attr accented 1%positive "operation" = Some (VStr "é") ∧
  attr accented 1%positive "duration" = Some (VFloat (PF := Q_float) 1%Q) ∧
  children_of accented 1%positive = Some [2%positive] ∧
  fst (get_records 1%positive accented) = Raise UnicodeEncodeError ∧
  fst (get_records 2%positive accented) = Ret [Rec (PF := Q_float) "child" 2%Q 0%Q 1].
Proof. vm_compute. repeat split; reflexivity. Qed.



(** C6, as the specification words it, fails.  The monitor has an
    accumulated duration of four seconds.  It is entered at 20 and left
    at 16, the wall clock having been set back in between: the
    duration is then zero, with no flush. *)
Lemma clock_set_back_lowers_duration :
  attr stored 1%positive "duration" = Some (VFloat (PF := Q_float) 4%Q) ∧
  fst (run_cycles 1%positive (from [(20, 16)]) stored) = Ret () ∧
  duration_after stored 1%positive (from [(20, 16)]) = Some (inject_Z 0) ∧
  fle (PyFloat := Q_float) 4%Q (inject_Z 0) = false ∧
  console (snd (run_cycles 1%positive (from [(20, 16)]) stored)) = console stored ∧
  files (snd (run_cycles 1%positive (from [(20, 16)]) stored)) = files stored.
Proof.
  split; [exact stored_duration|]. split; [exact set_back_returns|].
  split; [exact set_back_duration|]. split; [reflexivity|].
  exact set_back_sink.
Qed.

(** ** The theorems on the runs *)

Lemma duration_accumulates_witness :
  duration_after sampling 1%positive (from [(10, 13); (20, 25)])
  = Some (accumulate (PF := Q_float) (to_float (NInt 0)) (from [(10, 13); (20, 25)])) ∧
  (∀ cs1 c cs2, from [(10, 13); (20, 25)] = cs1 ++ c :: cs2 →
     ∃ x y, duration_after sampling 1%positive cs1 = Some x ∧
            duration_after sampling 1%positive (cs1 ++ [c]) = Some y ∧
            y = fadd x (elapsed c) ∧
            (PyFloatOrder Q_float →
             ffinite x = true →
             ffinite (now (c_enter c)) = true → ffinite (now (c_exit c)) = true →
             fle (now (c_enter c)) (now (c_exit c)) = true →
             fle x y = true)) ∧
  (∀ mon (o : op (PF := Q_float)) (w0 : world (PF := Q_float)) r0 w1 l,
     assigns_duration o = false →
     run_op mon o w0 = (r0, w1) → allocated w0 l →
     attr w1 l "duration" = attr w0 l "duration").
Proof.
  exact (duration_accumulates (PF := Q_float) sampling 1%positive
           (from [(10, 13); (20, 25)]) _ (VBool false) (VInt 0) (NInt 0)
           sampling_class sampling_autoflush eq_refl sampling_duration eq_refl
           sampling_cycles).
Defined.

Lemma flush_twice_witness :
  get_records 1%positive (snd (flush (at_time 40) 1%positive measured))
  = (Ret [], snd (flush (at_time 40) 1%positive measured)) ∧
  flush (at_time 50) 1%positive (snd (flush (at_time 40) 1%positive measured))
  = (Ret (), snd (flush (at_time 40) 1%positive measured)).
Proof.
  exact (flush_twice (PF := Q_float) (at_time 40) (at_time 50) measured 1%positive _
           measured_class measured_flush).
Defined.


(** ** More of the theorems on the runs *)

Lemma measured_allocated : allocated measured 1%positive.
Proof. eapply attr_allocated, measured_duration. Qed.

Lemma session_outcome :
  run_ops session measured
  = (fst (run_ops session measured), snd (run_ops session measured)).
Proof. apply surjective_pairing. Qed.

Lemma hierarchy_only_grows_witness :
  class_of (snd (run_ops session measured)) 1%positive = class_of measured 1%positive ∧
  ∃ more, children_of (snd (run_ops session measured)) 1%positive
          = Some ([2%positive] ++ more).
Proof.
  destruct (hierarchy_only_grows (PF := Q_float) session measured
              (fst (run_ops session measured)) (snd (run_ops session measured))
              1%positive session_outcome measured_allocated)
    as (_ & Hc & _ & Hch).
  split; [exact Hc|]. exact (Hch [2%positive] measured_children).
Defined.

Lemma measured_child_class : class_of measured 2%positive = Some PerformanceMonitor.
Proof. vm_compute. reflexivity. Qed.

Lemma measured_child_autoflush : attr measured 2%positive "autoflush" = Some (VBool false).
Proof. vm_compute. reflexivity. Qed.

Lemma measured_child_cycle :
  run_cycles 2%positive (from [(40, 45)]) measured
  = (Ret (), snd (run_cycles 2%positive (from [(40, 45)]) measured)).
Proof. apply run_eta. vm_compute. reflexivity. Qed.

Lemma monitors_are_independent_witness :
  (∀ l a, l ≠ 2%positive →
     attr (snd (run_cycles 2%positive (from [(40, 45)]) measured)) l a
     = attr measured l a) ∧
  (∀ a, a ∉ measurement_attrs →
     attr (snd (run_cycles 2%positive (from [(40, 45)]) measured)) 2%positive a
     = attr measured 2%positive a) ∧
  files (snd (run_cycles 2%positive (from [(40, 45)]) measured)) = files measured ∧
  console (snd (run_cycles 2%positive (from [(40, 45)]) measured)) = console measured.
Proof.
  exact (monitors_are_independent (PF := Q_float) 2%positive (from [(40, 45)]) measured
           (snd (run_cycles 2%positive (from [(40, 45)]) measured)) (VBool false)
           measured_child_class measured_child_autoflush eq_refl measured_child_cycle).
Defined.

Lemma sampling_pid : attr sampling 1%positive "pid" = Some VNone.
Proof. vm_compute. reflexivity. Qed.

Lemma sampling_measuremem : attr sampling 1%positive "measuremem" = Some (VBool true).
Proof. vm_compute. reflexivity. Qed.




Lemma measured_pid_attr : attr measured 1%positive "pid" = Some (VInt 4242).
Proof. vm_compute. reflexivity. Qed.

Lemma denied_sampling_stays_off_witness :
  measure_mem (denied_at 40) 1%positive measured
  = (Ret VNone, upd 1%positive "pid" (VInt 0) measured) ∧
  measure_mem (at_time 50) 1%positive (upd 1%positive "pid" (VInt 0) measured)
  = (Ret VNone, upd 1%positive "pid" (VInt 0) measured).
Proof.
  apply (denied_sampling_stays_off (PF := Q_float) (denied_at 40) (at_time 50)
           1%positive measured 4242).
  - exact measured_pid_attr.
  - discriminate.
  - reflexivity.
Defined.

Lemma vanished_process_aborts_entry_witness :
  fst (with_ (vanished_at 10) (at_time 13) 1%positive (mret ()) sampling)
  = Raise NoSuchProcess ∧
  with_ (vanished_at 10) (at_time 13) 1%positive (mret ()) sampling
  = with_ (vanished_at 10) (at_time 99) 1%positive (raise (UserError 7)) sampling ∧
  attr (snd (with_ (vanished_at 10) (at_time 13) 1%positive (mret ()) sampling))
       1%positive "duration"
  = attr sampling 1%positive "duration" ∧
  attr (snd (with_ (vanished_at 10) (at_time 13) 1%positive (mret ()) sampling))
       1%positive "mem"
  = attr sampling 1%positive "mem".
Proof.
  apply (vanished_process_aborts_entry (PF := Q_float) (vanished_at 10) (at_time 13)
           (at_time 99) 1%positive (mret ()) (raise (UserError 7)) sampling
           VNone 4242 (VBool true)).
  - exact sampling_class.
  - exact sampling_pid.
  - reflexivity.
  - discriminate.
  - exact sampling_measuremem.
  - reflexivity.
  - reflexivity.
Defined.

Lemma unsampled_measuremem : attr unsampled 1%positive "measuremem" = Some (VBool true).
Proof. vm_compute. reflexivity. Qed.

Lemma unsampled_pid : attr unsampled 1%positive "pid" = Some (VInt 0).
Proof. vm_compute. reflexivity. Qed.

Lemma unsampled_mem : attr unsampled 1%positive "mem" = Some (VInt 0).
Proof. vm_compute. reflexivity. Qed.

Lemma unsampled_start_mem : attr unsampled 1%positive "start_mem" = Some VNone.
Proof. vm_compute. reflexivity. Qed.

Lemma pm_exit_without_sample_witness :
  pm_exit (at_time 13) 1%positive None unsampled
  = (Raise TypeError,
     upd 1%positive "stop_mem" VNone (upd 1%positive "exc" (exc_val None) unsampled)).
Proof.
  exact (pm_exit_without_sample (PF := Q_float) (at_time 13) 1%positive None unsampled
           (VBool true) (VInt 0) (VInt 0) VNone
           unsampled_measuremem eq_refl unsampled_pid eq_refl
           unsampled_mem unsampled_start_mem).
Defined.









Lemma measured_hdf5path : attr measured 1%positive "hdf5path" = Some VNone.
Proof. vm_compute. reflexivity. Qed.

Lemma measured_convertible :
  Forall (λ e, convertible e = true)
    [Entry (PF := Q_float) "parent" (NFloat (PF := Q_float) 3%Q) (NInt 3145728) true;
     Entry (PF := Q_float) "child" (NFloat (PF := Q_float) 7%Q) (NInt 7340032) true].
Proof.
  apply List.Forall_cons; [vm_compute; reflexivity|].
  apply List.Forall_cons; [vm_compute; reflexivity|]. apply List.Forall_nil.
Qed.

Lemma flush_prints_records_witness :
  ∃ w', flush (at_time 40) 1%positive measured = (Ret (), w') ∧
        heap w' = heap (reset_world [1%positive; 2%positive] measured) ∧
        console w'
        = console measured ++
          records_of
            [Entry (PF := Q_float) "parent" (NFloat (PF := Q_float) 3%Q) (NInt 3145728) true;
             Entry (PF := Q_float) "child" (NFloat (PF := Q_float) 7%Q) (NInt 7340032) true] ∧
        files w' = files measured.
Proof.
  exact (flush_prints_records (PF := Q_float) (at_time 40) measured 1%positive
           [2%positive] _ VNone
           measured_class measured_children measured_entries measured_convertible
           measured_hdf5path eq_refl).
Defined.








Lemma stored_operation :
  default ∅ (o_vars <$> heap stored !! 1%positive) !! "operation" = Some (VStr "job").
Proof. vm_compute. reflexivity. Qed.

Lemma stored_children_attr :
  default ∅ (o_vars <$> heap stored !! 1%positive) !! "children" = Some (VList []).
Proof. vm_compute. reflexivity. Qed.

Lemma stored_pid_attr :
  default ∅ (o_vars <$> heap stored !! 1%positive) !! "pid" = Some (VInt 4242).
Proof. vm_compute. reflexivity. Qed.

Lemma two_requests_plain :
  Forall (λ rq : env (PF := Q_float) * val (PF := Q_float) * gmap string (val (PF := Q_float)),
            rq.2 !! "self" = None ∧ rq.2 !! "operation" = None ∧
            rq.2 !! "children" = None) two_requests.
Proof.
  apply List.Forall_cons; [repeat split; apply lookup_empty|].
  apply List.Forall_cons; [repeat split; apply lookup_empty|]. apply List.Forall_nil.
Qed.

Lemma children_keep_call_order_witness :
  ∃ news w',
    spawn_all 1%positive two_requests stored = (Ret news, w') ∧
    children_of w' 1%positive = Some ([] ++ news) ∧
    NoDup news ∧
    Forall (λ new, ¬ allocated stored new ∧
                   class_of w' new = Some PerformanceMonitor) news ∧
    Forall2 (λ new rq, attr w' new "operation" = Some rq.1.2) news two_requests.
Proof.
  exact (children_keep_call_order (PF := Q_float) two_requests stored 1%positive
           (default ∅ (o_vars <$> heap stored !! 1%positive)) []
           (heap_lookup_vars stored 1%positive PerformanceMonitor stored_class)
           (ex_intro _ (VStr "job") stored_operation)
           stored_children_attr
           (ex_intro _ (VInt 4242) stored_pid_attr)
           two_requests_plain).
Defined.

Lemma grown_children :
  attr grown 1%positive "children" = attr measured 1%positive "children".
Proof. vm_compute. reflexivity. Qed.

Lemma grown_readings : same_readings [1%positive; 2%positive] measured grown.
Proof.
  unfold same_readings, collected_attrs.
  repeat first [ apply List.Forall_nil | apply List.Forall_cons
               | match goal with |- _ ∧ _ => split end ];
    vm_compute; reflexivity.
Qed.

Lemma grown_grandchild :
  attr grown 3%positive "duration" = Some (VFloat (PF := Q_float) 17%Q) ∧
  children_of grown 2%positive = Some [3%positive].
Proof. split; vm_compute; reflexivity. Qed.

Lemma get_data_reads_direct_children_only_witness :
  (attr grown 3%positive "duration" = Some (VFloat (PF := Q_float) 17%Q) ∧
   children_of grown 2%positive = Some [3%positive]) ∧
  fst (get_records 1%positive grown) = fst (get_records 1%positive measured).
Proof.
  split; [exact grown_grandchild|].
  exact (get_data_reads_direct_children_only (PF := Q_float) measured grown 1%positive
           [2%positive] measured_children grown_children grown_readings).
Defined.











Lemma dummy_class : class_of dummy 1%positive = Some DummyMonitor.
Proof. vm_compute. reflexivity. Qed.

Lemma dummy_noop_witness :
  enter (at_time 10) 1%positive dummy = (Ret 1%positive, dummy) ∧
  exit_ (at_time 10) 1%positive None dummy = (Ret VNone, dummy) ∧
  flush (at_time 10) 1%positive dummy = (Ret (), dummy) ∧
  ∃ new w', call (at_time 10) 1%positive (VStr "sub") ∅ dummy = (Ret new, w') ∧
            ¬ allocated dummy new ∧ class_of w' new = Some DummyMonitor ∧
            (∀ l, l ≠ new → heap w' !! l = heap dummy !! l) ∧
            files w' = files dummy ∧ console w' = console dummy.
Proof.
  exact (dummy_noop (PF := Q_float) (at_time 10) 1%positive None (VStr "sub") ∅ dummy
           dummy_class (lookup_empty _) (lookup_empty _)).
Defined.

Lemma with_dummy_is_the_block_witness :
  with_ (at_time 10) (at_time 13) 1%positive (raise (UserError 7)) dummy
  = (raise (UserError 7) : M unit) dummy.
Proof.
  exact (with_dummy_is_the_block (PF := Q_float) (at_time 10) (at_time 13) 1%positive
           (raise (UserError 7)) dummy dummy_class dummy_class).
Defined.
